(** * Task dispatch service: path sandbox, storage accessors and dispatcher

    A shallow embedding of [app/config.py], [app/utils/security.py],
    [app/utils/file_ops.py], [app/utils/llm.py], [app/main.py] and the
    email task of [app/handlers/operations.py].

    Python [str] values are Rocq strings whose characters stand for the code
    points 0..255.  Exceptions are values of [exn]; a function that can raise
    returns a [result].  Functions that touch the file system or the
    text-generation service thread a [world] explicitly.

    The world is smaller than a process: files hold text (the encoding of
    the locale, which can refuse a text or a file, is not part of it), names
    have no length limit, there are no permissions, no descriptors inherited
    from the parent and no limits of the interpreter.  Where a property
    would depend on one of these, its statement says what it assumes. *)

From Stdlib Require Import ZArith Lia Bool Ascii.
From Stdlib Require Import DecimalString DecimalFacts DecimalPos DecimalZ.
From stdpp Require Import base option list strings gmap.


Open Scope Z_scope.

(** ** Exceptions and results *)

(** The exception classes the modelled code raises or catches. *)
Inductive pyexc :=
| ValueError | KeyError | TypeError | RuntimeError | AttributeError
| FileNotFoundError | NotADirectoryError | IsADirectoryError | FileExistsError
| OSError | JSONDecodeError | ClientError.

Inductive exn :=
| HTTPException (status_code : Z) (detail : string)
| PyError (cls : pyexc) (msg : string).

Inductive result (A : Type) :=
| Ok (a : A)
| Err (e : exn).
Arguments Ok {A} a.
Arguments Err {A} e.

Definition is_ok {A} (r : result A) : bool :=
  match r with Ok _ => true | Err _ => false end.

(** Decimal text of an integer, as [str(n)] prints it. *)
Definition str_int (n : Z) : string := NilZero.string_of_int (Z.to_int n).

(** [str(e)]: starlette prints an HTTPException as "<status>: <detail>";
    other exceptions print their message. *)
Definition str_exn (e : exn) : string :=
  match e with
  | HTTPException c d => str_int c +:+ ": " +:+ d
  | PyError _ m => m
  end.

(** ** Strings *)

Definition dquote : string := String (Ascii.ascii_of_nat 34) "".
Definition squote : string := "'".

(** [s.startswith(p)] *)
Definition startswith (s p : string) : bool := String.prefix p s.

(** [sub in s] *)
Fixpoint str_contains (sub s : string) : bool :=
  String.prefix sub s ||
  match s with
  | EmptyString => false
  | String _ s' => str_contains sub s'
  end.

(** [s.split(sep)] for a one-character separator. *)
Fixpoint split_on (sep : ascii) (s : string) : list string :=
  match s with
  | EmptyString => [EmptyString]
  | String c s' =>
      if Ascii.eqb c sep then EmptyString :: split_on sep s'
      else match split_on sep s' with
           | [] => [String c EmptyString]
           | w :: ws => String c w :: ws
           end
  end.

(** [sep.join(l)] *)
Fixpoint join (sep : string) (l : list string) : string :=
  match l with
  | [] => ""
  | [x] => x
  | x :: xs => x +:+ sep +:+ join sep xs
  end.

Definition NUL : string := String (Ascii.ascii_of_nat 0) "".
Definition CR : ascii := Ascii.ascii_of_nat 13.
Definition LF : ascii := Ascii.ascii_of_nat 10.
Definition NL : string := String LF "".

(** ** app/config.py *)

(** [pathlib.PurePosixPath]: [root] is "", "/" or "//"; [parts] are the
    components after the root ("" and "." components are dropped by the
    constructor, ".." components are kept). *)
Record PurePath := mkPath { root : string; parts : list string }.

#[global] Instance PurePath_eq_dec : EqDecision PurePath.
Proof. solve_decision. Defined.

Fixpoint count_leading_slashes (s : string) : nat :=
  match s with
  | String "/" s' => S (count_leading_slashes s')
  | _ => 0%nat
  end.

Definition is_part (c : string) : bool :=
  negb (String.eqb c "" || String.eqb c ".").

(** [Path(s)] *)
Definition Path (s : string) : PurePath :=
  let r := match count_leading_slashes s with
           | O => ""
           | 2%nat => "//"
           | _ => "/"
           end in
  mkPath r (List.filter is_part (split_on "/" s)).

(** [str(path)] *)
Definition str_path (p : PurePath) : string :=
  match root p, parts p with
  | "", [] => "."
  | r, ps => r +:+ join "/" ps
  end.

(** [a / b] *)
Definition joinpath (a b : PurePath) : PurePath :=
  if String.eqb (root b) "" then mkPath (root a) (parts a ++ parts b) else b.

(** [path.parent] *)
Definition parent (p : PurePath) : PurePath :=
  mkPath (root p) (removelast (parts p)).

(** [path.parents]: the proper ancestors, nearest first. *)
Fixpoint proper_prefixes (l : list string) : list (list string) :=
  match l with
  | [] => []
  | x :: l' => [] :: map (cons x) (proper_prefixes l')
  end.

Definition parents (p : PurePath) : list PurePath :=
  map (mkPath (root p)) (rev (proper_prefixes (parts p))).

Definition API_PORT : Z := 8000.
Definition LLM_MODEL : string := "gpt-4o-mini".
Definition DATA_DIR : PurePath := Path "/data".
Definition TEMP_DIR : PurePath := Path "/tmp".
Definition ALLOWED_DIRS : list PurePath := [DATA_DIR].


(** ** The file system

    A node is found under its real path (the list of its components below
    "/", which is always a directory). *)
Inductive node :=
| Dir
| File (content : string)
| Symlink (target : string).

Record filesystem := mkFS {
  cwd : list string;
  nodes : gmap (list string) node
}.

(** The kernel gives up after this many symbolic links in one lookup.  The
    resolver below keeps the same count, for want of a measure of its own:
    [os.path.realpath] follows as many links as there are and stops at a
    link that it is already resolving, so a chain of more links than this
    that ends is a loop for the model only. *)
Definition SYMLOOP_MAX : nat := 40.

Definition is_abs (s : string) : bool := startswith s "/".

(** [os.path.realpath] in its default non-strict mode: "." and empty
    components are skipped, ".." drops the last component, a symbolic link is
    replaced by its target, and a component that does not exist is kept as it
    is.  [None] stands for a chain of links that does not end. *)
Fixpoint joinrealpath (fuel : nat) (fs : filesystem)
    (path rest : list string) {struct fuel} : option (list string) :=
  match fuel with
  | O => None
  | S fuel' =>
      (fix walk (path rest : list string) {struct rest} : option (list string) :=
         match rest with
         | [] => Some path
         | name :: rest' =>
             if String.eqb name "" || String.eqb name "." then walk path rest'
             else if String.eqb name ".." then walk (removelast path) rest'
             else
               let newpath := path ++ [name] in
               match nodes fs !! newpath with
               | Some (Symlink target) =>
                   joinrealpath fuel' fs
                     (if is_abs target then [] else path)
                     (split_on "/" target ++ rest')
               | _ => walk newpath rest'
               end
         end) path rest
  end.

(** [Path.resolve()]: an absolute path without links, "." or "..".  A path
    with an embedded NUL makes [os.lstat] raise ValueError, a link loop makes
    [resolve] raise RuntimeError. *)
Definition resolve (fs : filesystem) (p : PurePath) : result PurePath :=
  if existsb (str_contains NUL) (parts p)
  then Err (PyError ValueError "embedded null byte")
  else
    match joinrealpath (S SYMLOOP_MAX) fs
            (if String.eqb (root p) "" then cwd fs else []) (parts p) with
    | Some q => Ok (mkPath "/" q)
    | None =>
        Err (PyError RuntimeError
               ("Symlink loop from " +:+ squote +:+ str_path p +:+ squote))
    end.

(** [try: body except Exception as e: raise handler(e)] *)
Definition try_except {A} (body : result A) (handler : exn -> exn) : result A :=
  match body with
  | Ok a => Ok a
  | Err e => Err (handler e)
  end.

(** ** app/utils/security.py *)
Module security.

Definition validate_path (fs : filesystem) (path : PurePath) : result PurePath :=
  try_except
    (match resolve fs path with
     | Err e => Err e
     | Ok path =>
         if negb (existsb (fun allowed_dir =>
                             bool_decide (allowed_dir ∈ parents path))
                    ALLOWED_DIRS)
         then Err (HTTPException 400
                     "Access denied: Path outside allowed directories")
         else if str_contains ".." (str_path path)
         then Err (HTTPException 400 "Access denied: Invalid path")
         else Ok path
     end)
    (fun e => HTTPException 400 ("Invalid path: " +:+ str_exn e)).

Definition ensure_data_dir (fs : filesystem) (path : PurePath) : result PurePath :=
  let path :=
    if negb (startswith (str_path path) (str_path DATA_DIR))
    then joinpath DATA_DIR path
    else path in
  validate_path fs path.

End security.

(** ** The json module

    Numbers are integers: a number with a fraction or an exponent, NaN and
    Infinity are floating point and outside this model, as are escapes of
    code points above U+00FF; [loads] answers as for a malformed text on
    them.  Outside it too are the limits of the interpreter, on the depth of
    nesting and on the digits of an integer, whose errors (RecursionError,
    ValueError) are not JSONDecodeError.  The messages of JSONDecodeError
    are abbreviated. *)
#[local] Unset Elimination Schemes.
Inductive json :=
| JNull
| JBool (b : bool)
| JInt (n : Z)
| JString (s : string)
| JArray (items : list json)
| JObject (members : list (string * json)).
#[local] Set Elimination Schemes.

Definition BACKSLASH : ascii := Ascii.ascii_of_nat 92.
Definition DQ : ascii := Ascii.ascii_of_nat 34.

Definition hexdigit (n : nat) : ascii :=
  match String.get n "0123456789abcdef" with
  | Some c => c
  | None => "0"%char
  end.

(** One character of [encode_basestring_ascii]. *)
Definition escape_char (c : ascii) : string :=
  let n := nat_of_ascii c in
  if Ascii.eqb c DQ then String BACKSLASH (String DQ "")
  else if Ascii.eqb c BACKSLASH then String BACKSLASH (String BACKSLASH "")
  else if Nat.eqb n 10 then String BACKSLASH "n"
  else if Nat.eqb n 13 then String BACKSLASH "r"
  else if Nat.eqb n 9 then String BACKSLASH "t"
  else if Nat.eqb n 8 then String BACKSLASH "b"
  else if Nat.eqb n 12 then String BACKSLASH "f"
  else if Nat.leb 32 n && Nat.leb n 126 then String c ""
  else String BACKSLASH
         (String "u" (String "0" (String "0"
            (String (hexdigit (n / 16)) (String (hexdigit (n mod 16)) ""))))).

Fixpoint escape_chars (s : string) : string :=
  match s with
  | EmptyString => EmptyString
  | String c s' => escape_char c +:+ escape_chars s'
  end.

Definition encode_basestring_ascii (s : string) : string :=
  String DQ (escape_chars s +:+ String DQ "").

Fixpoint spaces (n : nat) : string :=
  match n with
  | O => EmptyString
  | S n' => String " " (spaces n')
  end.

(** A line break and the indentation of nesting depth [level] (indent=2). *)
Definition newline_indent (level : nat) : string :=
  String LF (spaces (2 * level)).

(** [json.dumps(v, indent=2)] from nesting depth [level]. *)
Fixpoint iterencode (level : nat) (v : json) : string :=
  match v with
  | JNull => "null"
  | JBool true => "true"
  | JBool false => "false"
  | JInt n => str_int n
  | JString s => encode_basestring_ascii s
  | JArray [] => "[]"
  | JArray (x :: xs) =>
      "[" +:+ newline_indent (S level) +:+ iterencode (S level) x +:+
      (fix items (l : list json) : string :=
         match l with
         | [] => EmptyString
         | y :: l' =>
             "," +:+ newline_indent (S level) +:+ iterencode (S level) y +:+ items l'
         end) xs +:+
      newline_indent level +:+ "]"
  | JObject [] => "{}"
  | JObject ((k, x) :: xs) =>
      "{" +:+ newline_indent (S level) +:+
      encode_basestring_ascii k +:+ ": " +:+ iterencode (S level) x +:+
      (fix items (l : list (string * json)) : string :=
         match l with
         | [] => EmptyString
         | (k', y) :: l' =>
             "," +:+ newline_indent (S level) +:+
             encode_basestring_ascii k' +:+ ": " +:+ iterencode (S level) y +:+
             items l'
         end) xs +:+
      newline_indent level +:+ "}"
  end.

Definition dumps (v : json) : string := iterencode 0 v.

Definition is_ws (c : ascii) : bool :=
  let n := nat_of_ascii c in
  Nat.eqb n 32 || Nat.eqb n 9 || Nat.eqb n 10 || Nat.eqb n 13.

Fixpoint skip_ws (s : string) : string :=
  match s with
  | String c s' => if is_ws c then skip_ws s' else s
  | EmptyString => s
  end.

Definition hexval (c : ascii) : option nat :=
  let n := nat_of_ascii c in
  if Nat.leb 48 n && Nat.leb n 57 then Some (n - 48)%nat
  else if Nat.leb 97 n && Nat.leb n 102 then Some (n - 87)%nat
  else if Nat.leb 65 n && Nat.leb n 70 then Some (n - 55)%nat
  else None.

(** The escape after a backslash, [u] apart. *)
Definition unescape (e : ascii) : option ascii :=
  if Ascii.eqb e DQ then Some DQ
  else if Ascii.eqb e BACKSLASH then Some BACKSLASH
  else if Ascii.eqb e "/" then Some "/"%char
  else if Ascii.eqb e "b" then Some (Ascii.ascii_of_nat 8)
  else if Ascii.eqb e "f" then Some (Ascii.ascii_of_nat 12)
  else if Ascii.eqb e "n" then Some LF
  else if Ascii.eqb e "r" then Some CR
  else if Ascii.eqb e "t" then Some (Ascii.ascii_of_nat 9)
  else None.

(** [scanstring] (strict) after the opening quote: the decoded text and what
    follows the closing quote. *)
Fixpoint scanstring (s : string) : option (string * string) :=
  match s with
  | EmptyString => None
  | String c s' =>
      if Ascii.eqb c DQ then Some (EmptyString, s')
      else if Ascii.eqb c BACKSLASH then
        match s' with
        | String "u" (String h1 (String h2 (String h3 (String h4 s'')))) =>
            match hexval h1, hexval h2, hexval h3, hexval h4 with
            | Some 0%nat, Some 0%nat, Some a, Some b =>
                match scanstring s'' with
                | Some (t, r) => Some (String (Ascii.ascii_of_nat (16 * a + b)) t, r)
                | None => None
                end
            | _, _, _, _ => None
            end
        | String e s'' =>
            match unescape e with
            | Some c' =>
                match scanstring s'' with
                | Some (t, r) => Some (String c' t, r)
                | None => None
                end
            | None => None
            end
        | EmptyString => None
        end
      else if Nat.ltb (nat_of_ascii c) 32 then None
      else
        match scanstring s' with
        | Some (t, r) => Some (String c t, r)
        | None => None
        end
  end.

Definition is_digit (c : ascii) : bool :=
  let n := nat_of_ascii c in Nat.leb 48 n && Nat.leb n 57.

(** The longest run of digits at the head of [s], and the rest. *)
Fixpoint span_digits (s : string) : string * string :=
  match s with
  | String c s' =>
      if is_digit c then
        let (d, r) := span_digits s' in (String c d, r)
      else (EmptyString, s)
  | EmptyString => (EmptyString, s)
  end.

(** The digits of the integer part of a number: either a single 0 or a run
    of digits that does not start with 0. *)
Definition scan_digits (s : string) : option (string * string) :=
  match s with
  | String "0" r => Some ("0", r)
  | _ => match span_digits s with
         | (EmptyString, _) => None
         | (d, r) => Some (d, r)
         end
  end.

(** The integer part of a number: an optional minus sign, then the digits. *)
Definition scan_int (s : string) : option (string * string) :=
  match s with
  | String "-" s' =>
      match scan_digits s' with
      | Some (d, r) => Some (String "-" d, r)
      | None => None
      end
  | _ => scan_digits s
  end.

Definition scan_number (s : string) : option (json * string) :=
  match scan_int s with
  | None => None
  | Some (text, r) =>
      match r with
      | String "." _ | String "e" _ | String "E" _ => None
      | _ => match NilZero.int_of_string text with
             | Some i => Some (JInt (Z.of_int i), r)
             | None => None
             end
      end
  end.

(** [d[k] = v] on a dict kept as the list of its items in insertion order. *)
Fixpoint dict_set (k : string) (v : json) (d : list (string * json))
  : list (string * json) :=
  match d with
  | [] => [(k, v)]
  | (k', v') :: d' =>
      if String.eqb k k' then (k, v) :: d' else (k', v') :: dict_set k v d'
  end.

(** [dict(pairs)] *)
Definition dict_of_pairs (pairs : list (string * json)) : list (string * json) :=
  fold_left (fun d kv => dict_set (fst kv) (snd kv) d) pairs [].

(** [scan_once]: one value at the head of [s].  [parse_array] and
    [parse_object] read the items after the opening bracket, from the first
    item on. *)
Fixpoint scan_once (fuel : nat) (s : string) : option (json * string) :=
  match fuel with
  | O => None
  | S f =>
      match s with
      | String "{" s' =>
          match skip_ws s' with
          | String "}" r => Some (JObject [], r)
          | s1 => match parse_object f s1 with
                  | Some (pairs, r) => Some (JObject (dict_of_pairs pairs), r)
                  | None => None
                  end
          end
      | String "[" s' =>
          match skip_ws s' with
          | String "]" r => Some (JArray [], r)
          | s1 => match parse_array f s1 with
                  | Some (vs, r) => Some (JArray vs, r)
                  | None => None
                  end
          end
      | String "n" (String "u" (String "l" (String "l" r))) => Some (JNull, r)
      | String "t" (String "r" (String "u" (String "e" r))) => Some (JBool true, r)
      | String "f" (String "a" (String "l" (String "s" (String "e" r)))) =>
          Some (JBool false, r)
      | String c s' =>
          if Ascii.eqb c DQ then
            match scanstring s' with
            | Some (t, r) => Some (JString t, r)
            | None => None
            end
          else scan_number s
      | EmptyString => None
      end
  end
with parse_array (fuel : nat) (s : string) : option (list json * string) :=
  match fuel with
  | O => None
  | S f =>
      match scan_once f s with
      | None => None
      | Some (v, r) =>
          match skip_ws r with
          | String "]" r' => Some ([v], r')
          | String "," r' =>
              match parse_array f (skip_ws r') with
              | Some (vs, r'') => Some (v :: vs, r'')
              | None => None
              end
          | _ => None
          end
      end
  end
with parse_object (fuel : nat) (s : string)
  : option (list (string * json) * string) :=
  match fuel with
  | O => None
  | S f =>
      match s with
      | String c s' =>
          if Ascii.eqb c DQ then
            match scanstring s' with
            | None => None
            | Some (k, r) =>
                match skip_ws r with
                | String ":" r1 =>
                    match scan_once f (skip_ws r1) with
                    | None => None
                    | Some (v, r2) =>
                        match skip_ws r2 with
                        | String "}" r3 => Some ([(k, v)], r3)
                        | String "," r3 =>
                            match parse_object f (skip_ws r3) with
                            | Some (kvs, r4) => Some ((k, v) :: kvs, r4)
                            | None => None
                            end
                        | _ => None
                        end
                    end
                | _ => None
                end
            end
          else None
      | EmptyString => None
      end
  end.

(** [json.loads(s)] *)
Definition loads (s : string) : result json :=
  match scan_once (S (String.length s)) (skip_ws s) with
  | Some (v, r) =>
      match skip_ws r with
      | EmptyString => Ok v
      | _ => Err (PyError JSONDecodeError "Extra data")
      end
  | None => Err (PyError JSONDecodeError "Expecting value")
  end.

(** [d.get(k)] on the items of a dict. *)
Fixpoint dict_get {V} (d : list (string * V)) (k : string) : option V :=
  match d with
  | [] => None
  | (k', v) :: d' => if String.eqb k k' then Some v else dict_get d' k
  end.

(** [v[key]] for a string key. *)
Definition getitem (v : json) (key : string) : result json :=
  match v with
  | JObject d =>
      match dict_get d key with
      | Some x => Ok x
      | None => Err (PyError KeyError (squote +:+ key +:+ squote))
      end
  | JArray _ => Err (PyError TypeError "list indices must be integers or slices, not str")
  | JString _ => Err (PyError TypeError "string indices must be integers")
  | _ => Err (PyError TypeError "object is not subscriptable")
  end.

(** ** The methods of the task handler *)

(** The methods of [TaskHandler] that the two dispatch tables name. *)
Inductive method :=
| handle_datagen | handle_format_markdown | handle_count_weekdays
| handle_sort_contacts | handle_recent_logs | handle_markdown_index
| handle_extract_email | handle_extract_card | handle_similar_comments
| handle_ticket_sales
| handle_api_fetch | handle_git_operations | handle_sql_query
| handle_web_scraping | handle_image_processing | handle_audio_transcription
| handle_markdown_conversion | handle_csv_filtering.

(** What a method is called with: the task description, or the parameters
    record of a custom task. *)
Inductive argument :=
| ArgTask (task : string)
| ArgParams (parameters : json).

(** ** World: file system, text-generation service, observable events *)

(** What one request to the chat-completions endpoint leads to.  Whatever
    goes wrong with a request that has been sent (a timeout, a refused or
    reset connection) is [TransportFailure]. *)
Inductive response_body :=
| Completion (content : string)   (* a body with choices[0].message.content *)
| ErrorBody                       (* a JSON body without "choices" *)
| NotJson.                        (* a body that is not JSON *)

Inductive llm_outcome :=
| TransportFailure
| Response (status : Z) (body : response_body).

Inductive event :=
| EvLLM (prompt : string)
| EvOpen (mode : string) (real : list string)
| EvInvoke (handler : method) (a : argument).

Record world := mkWorld {
  w_fs : filesystem;
  w_llm : list llm_outcome;        (* the outcomes of the requests to come *)
  w_trace : list event;            (* most recent event first *)
  w_token : option string          (* AIPROXY_TOKEN of the environment *)
}.

Definition M (A : Type) : Type := world -> world * result A.

Definition ret {A} (a : A) : M A := fun w => (w, Ok a).
Definition raise {A} (e : exn) : M A := fun w => (w, Err e).
Definition bind {A B} (m : M A) (k : A -> M B) : M B :=
  fun w => match m w with
           | (w', Ok a) => k a w'
           | (w', Err e) => (w', Err e)
           end.
Definition lift {A} (r : result A) : M A := fun w => (w, r).
Definition log (e : event) : M unit :=
  fun w => (mkWorld (w_fs w) (w_llm w) (e :: w_trace w) (w_token w), Ok tt).
Definition set_fs (fs : filesystem) : M unit :=
  fun w => (mkWorld fs (w_llm w) (w_trace w) (w_token w), Ok tt).

Notation "x <- c ;; k" := (bind c (fun x => k))
  (at level 100, c at next level, right associativity).
Notation "c ;;; k" := (bind c (fun _ => k))
  (at level 100, right associativity).

(** [try: body except Exception as e: raise handler(e)] in [M]; what the body
    did to the world before it raised stays done. *)
Definition try_exceptM {A} (body : M A) (handler : exn -> exn) : M A :=
  fun w => match body w with
           | (w', r) => (w', try_except r handler)
           end.

(** *** Kernel path lookup *)

Inductive oserr := ENOENT | ENOTDIR | ELOOP | EEXIST.

Definition exn_of_oserr (e : oserr) (path : string) : exn :=
  match e with
  | ENOENT => PyError FileNotFoundError
                ("[Errno 2] No such file or directory: " +:+ squote +:+ path +:+ squote)
  | ENOTDIR => PyError NotADirectoryError
                ("[Errno 20] Not a directory: " +:+ squote +:+ path +:+ squote)
  | ELOOP => PyError OSError
                ("[Errno 40] Too many levels of symbolic links: " +:+ squote +:+ path +:+ squote)
  | EEXIST => PyError FileExistsError
                ("[Errno 17] File exists: " +:+ squote +:+ path +:+ squote)
  end.

(** The lookup the kernel does for [open], [stat] and [mkdir]: every
    component but the last must be a directory (after following links).  The
    answer is the real path of the last component and the node found there,
    [None] when only the last component is missing. *)
Fixpoint namei (fuel : nat) (fs : filesystem)
    (cur rest : list string) {struct fuel} : oserr + (list string * option node) :=
  match fuel with
  | O => inl ELOOP
  | S fuel' =>
      (fix walk (cur rest : list string) {struct rest}
         : oserr + (list string * option node) :=
         match rest with
         | [] => inr (cur, Some Dir)
         | name :: rest' =>
             if String.eqb name "" || String.eqb name "." then walk cur rest'
             else if String.eqb name ".." then walk (removelast cur) rest'
             else
               let np := cur ++ [name] in
               match nodes fs !! np with
               | None => match rest' with
                         | [] => inr (np, None)
                         | _ => inl ENOENT
                         end
               | Some Dir => walk np rest'
               | Some (File c) => match rest' with
                                  | [] => inr (np, Some (File c))
                                  | _ => inl ENOTDIR
                                  end
               | Some (Symlink target) =>
                   if String.eqb target "" then inl ENOENT
                   else namei fuel' fs
                          (if is_abs target then [] else cur)
                          (split_on "/" target ++ rest')
               end
         end) cur rest
  end.

Definition lookup_path (fs : filesystem) (path : string)
  : oserr + (list string * option node) :=
  if String.eqb path "" then inl ENOENT
  else namei (S SYMLOOP_MAX) fs (if is_abs path then [] else cwd fs)
         (split_on "/" path).

(** Text mode reads translate "\r\n" and "\r" to "\n". *)
Fixpoint universal_newlines (s : string) : string :=
  match s with
  | EmptyString => EmptyString
  | String c s' =>
      if Ascii.eqb c CR then
        match s' with
        | String c' _ =>
            if Ascii.eqb c' LF then universal_newlines s'
            else String LF (universal_newlines s')
        | EmptyString => String LF EmptyString
        end
      else String c (universal_newlines s')
  end.

(** [with open(path, 'r') as f: f.read()]; the file is text. *)
Definition open_read (path : string) : M string :=
  fun w =>
    if str_contains NUL path
    then (w, Err (PyError ValueError "embedded null byte"))
    else match lookup_path (w_fs w) path with
         | inr (q, Some (File c)) =>
             (log (EvOpen "r" q) ;;; ret (universal_newlines c)) w
         | inr (_, Some Dir) =>
             (w, Err (PyError IsADirectoryError
                        ("[Errno 21] Is a directory: " +:+ squote +:+ path +:+ squote)))
         | inr (_, _) => (w, Err (exn_of_oserr ENOENT path))
         | inl e => (w, Err (exn_of_oserr e path))
         end.

(** [with open(path, 'w') as f: f.write(content)]; the text is one that
    the encoding of the locale writes. *)
Definition open_write (path content : string) : M unit :=
  fun w =>
    if str_contains NUL path
    then (w, Err (PyError ValueError "embedded null byte"))
    else match lookup_path (w_fs w) path with
         | inr (q, Some (File _)) | inr (q, None) =>
             (log (EvOpen "w" q) ;;;
              set_fs (mkFS (cwd (w_fs w)) (<[q := File content]> (nodes (w_fs w))))) w
         | inr (_, Some Dir) =>
             (w, Err (PyError IsADirectoryError
                        ("[Errno 21] Is a directory: " +:+ squote +:+ path +:+ squote)))
         | inr (_, Some (Symlink _)) => (w, Err (exn_of_oserr ELOOP path))
         | inl e => (w, Err (exn_of_oserr e path))
         end.

(** [path.exists()]: any failure of the lookup is "no". *)
Definition exists_ (fs : filesystem) (path : PurePath) : bool :=
  match lookup_path fs (str_path path) with
  | inr (_, Some _) => true
  | _ => false
  end.

(** [path.is_dir()] *)
Definition is_dir (fs : filesystem) (path : PurePath) : bool :=
  match lookup_path fs (str_path path) with
  | inr (_, Some Dir) => true
  | _ => false
  end.

(** [os.mkdir(path)] for an absolute path given by its components. *)
Definition os_mkdir (fs : filesystem) (ps : list string) : oserr + filesystem :=
  match last ps with
  | None => inl EEXIST
  | Some name =>
      match namei (S SYMLOOP_MAX) fs [] (removelast ps) with
      | inr (q, Some Dir) =>
          if String.eqb name ".." || String.eqb name "." then inl EEXIST
          else match nodes fs !! (q ++ [name]) with
               | Some _ => inl EEXIST
               | None => inr (mkFS (cwd fs) (<[q ++ [name] := Dir]> (nodes fs)))
               end
      | inr (_, Some _) => inl ENOTDIR
      | inr (_, None) => inl ENOENT
      | inl e => inl e
      end
  end.

(** [path.mkdir(parents=True, exist_ok=True)] for an absolute path whose
    components are given last first (so that the parent is the tail):
    pathlib tries [os.mkdir], on FileNotFoundError makes the parent and tries
    again, and lets any other OSError pass when the path is a directory. *)
Fixpoint mkdir_parents (fs : filesystem) (rev_parts : list string)
  : filesystem * result unit :=
  let path := mkPath "/" (rev rev_parts) in
  let exist_ok (fs : filesystem) (e : oserr) :=
    if is_dir fs path then (fs, Ok tt)
    else (fs, Err (exn_of_oserr e (str_path path))) in
  match os_mkdir fs (rev rev_parts) with
  | inr fs' => (fs', Ok tt)
  | inl ENOENT =>
      match rev_parts with
      | [] => (fs, Err (exn_of_oserr ENOENT (str_path path)))
      | _ :: rev_parent =>
          match mkdir_parents fs rev_parent with
          | (fs1, Err e) => (fs1, Err e)
          | (fs1, Ok _) =>
              match os_mkdir fs1 (rev rev_parts) with
              | inr fs2 => (fs2, Ok tt)
              | inl ENOENT => (fs1, Err (exn_of_oserr ENOENT (str_path path)))
              | inl e => exist_ok fs1 e
              end
          end
      end
  | inl e => exist_ok fs e
  end.

Definition mkdir (path : PurePath) : M unit :=
  fun w => match mkdir_parents (w_fs w) (rev (parts path)) with
           | (fs', r) => (mkWorld fs' (w_llm w) (w_trace w) (w_token w), r)
           end.

(** A file system with a data directory and a password file, no links. *)
Definition fs0 : filesystem :=
  mkFS [] (list_to_map
             [ (["data"], Dir);
               (["data"; "sub"], Dir);
               (["data"; "file"], File "hello");
               (["etc"], Dir);
               (["etc"; "passwd"], File "root:x:0:0") ]).

(** ** app/utils/file_ops.py

    A [str] argument is turned into a path by the caller with [Path], as
    [Path(path)] does inside [validate_path] and [ensure_data_dir]. *)
Module file_ops.

Definition read_file (path : PurePath) : M string :=
  path <- (fun w => (w, security.validate_path (w_fs w) path)) ;;
  try_exceptM
    (open_read (str_path path))
    (fun e => match e with
              | PyError FileNotFoundError _ => HTTPException 404 "File not found"
              | _ => HTTPException 500 ("Error reading file: " +:+ str_exn e)
              end).

Definition write_file (path : PurePath) (content : string) : M unit :=
  path <- (fun w => (w, security.ensure_data_dir (w_fs w) path)) ;;
  try_exceptM
    (mkdir (parent path) ;;;
     open_write (str_path path) content)
    (fun e => HTTPException 500 ("Error writing file: " +:+ str_exn e)).

Definition read_json (path : PurePath) : M json :=
  content <- read_file path ;;
  lift (match loads content with
        | Err (PyError JSONDecodeError _) => Err (HTTPException 500 "Invalid JSON file")
        | r => r
        end).

Definition write_json (path : PurePath) (data : json) : M unit :=
  try_exceptM
    (let content := dumps data in
     write_file path content)
    (fun e => HTTPException 500 ("Error writing JSON: " +:+ str_exn e)).

End file_ops.

(** ** The chat-completions request *)

(** One request is sent and the next outcome of the service is consumed; a
    service that has nothing more to say times out. *)
Definition http_post (prompt : string) : M (Z * response_body) :=
  fun w =>
    let w1 := mkWorld (w_fs w) (tail (w_llm w)) (EvLLM prompt :: w_trace w) (w_token w) in
    match w_llm w with
    | Response status body :: _ => (w1, Ok (status, body))
    | _ => (w1, Err (PyError ClientError "Cannot connect to host"))
    end.

(** The keyword arguments of aiohttp's [ClientSession._request], to which
    [session.post] hands its own. *)
Definition request_keywords : list string :=
  [ "params"; "data"; "json"; "cookies"; "headers"; "skip_auto_headers"; "auth";
    "allow_redirects"; "max_redirects"; "compress"; "chunked"; "expect100";
    "raise_for_status"; "read_until_eof"; "proxy"; "proxy_auth"; "timeout";
    "verify_ssl"; "fingerprint"; "ssl_context"; "ssl"; "server_hostname";
    "proxy_headers"; "trace_request_ctx"; "read_bufsize"; "auto_decompress";
    "max_line_size"; "max_field_size" ].

(** [session.post(url, k1=..., k2=...)] with the keywords [k1, k2, ...]: a
    keyword that [_request] does not have is a TypeError of the call, raised
    before anything is sent. *)
Definition session_post (keywords : list string) (prompt : string)
  : M (Z * response_body) :=
  match List.find (fun k => negb (existsb (String.eqb k) request_keywords))
          keywords with
  | Some k =>
      raise (PyError TypeError
               ("ClientSession._request() got an unexpected keyword argument "
                +:+ squote +:+ k +:+ squote))
  | None => http_post prompt
  end.

(** [(await response.json())["choices"][0]["message"]["content"]] *)
Definition completion_content (body : response_body) : result string :=
  match body with
  | Completion content => Ok content
  | ErrorBody => Err (PyError KeyError "'choices'")
  | NotJson => Err (PyError ClientError "Attempt to decode JSON with unexpected mimetype")
  end.

Definition is_space (c : ascii) : bool :=
  let n := nat_of_ascii c in
  (Nat.leb 9 n && Nat.leb n 13) || (Nat.leb 28 n && Nat.leb n 32)
  || Nat.eqb n 133 || Nat.eqb n 160.

Fixpoint lstrip (s : string) : string :=
  match s with
  | String c s' => if is_space c then lstrip s' else s
  | EmptyString => s
  end.

Fixpoint rstrip (s : string) : string :=
  match s with
  | EmptyString => EmptyString
  | String c s' =>
      match rstrip s' with
      | EmptyString => if is_space c then EmptyString else String c EmptyString
      | r => String c r
      end
  end.

(** [s.strip()] *)
Definition strip (s : string) : string := rstrip (lstrip s).

(** ** app/utils/llm.py *)
Module llm.

Definition call_llm (prompt : string) : M string :=
  fun w =>
    match w_token w with
    | None | Some EmptyString =>
        (w, Err (PyError ValueError "AIPROXY_TOKEN environment variable not set"))
    | Some _ =>
        try_exceptM
          (r <- session_post ["headers"; "json"; "verify"] prompt ;;
           if negb (fst r =? 200)
           then raise (HTTPException 500 "LLM API call failed")
           else lift (completion_content (snd r)))
          (fun e => HTTPException 500 ("LLM API error: " +:+ str_exn e)) w
    end.

Definition classify_prompt (task_description : string) : string :=
  "Classify this task into one of these categories:" +:+ NL +:+
  "    A1: datagen.py installation/running" +:+ NL +:+
  "    A2: markdown formatting" +:+ NL +:+
  "    A3: counting weekdays" +:+ NL +:+
  "    A4: sorting contacts" +:+ NL +:+
  "    A5: log file processing" +:+ NL +:+
  "    A6: markdown indexing" +:+ NL +:+
  "    A7: email extraction" +:+ NL +:+
  "    A8: credit card extraction" +:+ NL +:+
  "    A9: comment similarity" +:+ NL +:+
  "    A10: ticket sales calculation" +:+ NL +:+
  "    B3-B10: custom business tasks" +:+ NL +:+
  "    " +:+ NL +:+
  "    Task: " +:+ task_description +:+ NL +:+
  "    " +:+ NL +:+
  "    Return only the category (e.g. 'A1', 'B3').".

Definition classify_task (task_description : string) : M string :=
  r <- call_llm (classify_prompt task_description) ;;
  ret (strip r).

End llm.

(** ** Dates *)

Definition digit_val (c : ascii) : option Z :=
  if is_digit c then Some (Z.of_nat (nat_of_ascii c) - 48) else None.

Definition is_leap (y : Z) : bool :=
  (y mod 4 =? 0) && (negb (y mod 100 =? 0) || (y mod 400 =? 0)).

Definition days_in_month (y m : Z) : Z :=
  if m =? 2 then (if is_leap y then 29 else 28)
  else if (m =? 4) || (m =? 6) || (m =? 9) || (m =? 11) then 30
  else 31.

Definition days_before_year (y : Z) : Z :=
  let y1 := y - 1 in y1 * 365 + y1 / 4 - y1 / 100 + y1 / 400.

Definition days_before_month (y m : Z) : Z :=
  fold_left Z.add (map (days_in_month y) (map Z.of_nat (seq 1 (Z.to_nat (m - 1))))) 0.

(** [date(y, m, d).toordinal()]: 1 for 0001-01-01. *)
Definition toordinal (y m d : Z) : Z :=
  days_before_year y + days_before_month y m + d.

(** [date(y, m, d).weekday()]: Monday is 0. *)
Definition weekday (y m d : Z) : Z := (toordinal y m d + 6) mod 7.

(** The month of [%m]: 1[0-2], then 0[1-9], then [1-9]; a dash must follow. *)
Definition scan_month (s : string) : option (Z * string) :=
  match s with
  | String a (String b (String "-" r)) =>
      match digit_val a, digit_val b with
      | Some x, Some y =>
          if ((x =? 1) && (y <=? 2)) || ((x =? 0) && (1 <=? y))
          then Some (10 * x + y, r) else None
      | _, _ => None
      end
  | String a (String "-" r) =>
      match digit_val a with
      | Some x => if 1 <=? x then Some (x, r) else None
      | None => None
      end
  | _ => None
  end.

(** The day of [%d]: 3[01], then [12][0-9], then 0[1-9], then [1-9], then a
    space and [1-9]; the first that matches is taken. *)
Definition scan_day (s : string) : option (Z * string) :=
  let two :=
    match s with
    | String a (String b r) =>
        match digit_val a, digit_val b with
        | Some x, Some y =>
            if ((x =? 3) && (y <=? 1)) || (x =? 1) || (x =? 2)
               || ((x =? 0) && (1 <=? y))
            then Some (10 * x + y, r) else None
        | _, _ => None
        end
    | _ => None
    end in
  match two with
  | Some r => Some r
  | None =>
      match s with
      | String a r =>
          match digit_val a with
          | Some x => if 1 <=? x then Some (x, r) else None
          | None =>
              if Ascii.eqb a " " then
                match r with
                | String b r' =>
                    match digit_val b with
                    | Some y => if 1 <=? y then Some (y, r') else None
                    | None => None
                    end
                | EmptyString => None
                end
              else None
          end
      | EmptyString => None
      end
  end.

(** [datetime.strptime(s, '%Y-%m-%d')], as year, month and day. *)
Definition strptime (s : string) : result (Z * Z * Z) :=
  let no_match := Err (PyError ValueError
    ("time data " +:+ squote +:+ s +:+ squote +:+ " does not match format '%Y-%m-%d'")) in
  match s with
  | String a (String b (String c (String d (String "-" s1)))) =>
      match digit_val a, digit_val b, digit_val c, digit_val d with
      | Some ya, Some yb, Some yc, Some yd =>
          let y := 1000 * ya + 100 * yb + 10 * yc + yd in
          match scan_month s1 with
          | Some (m, s2) =>
              match scan_day s2 with
              | Some (dd, EmptyString) =>
                  if negb (1 <=? y)
                  then Err (PyError ValueError "year 0 is out of range")
                  else if negb (dd <=? days_in_month y m)
                  then Err (PyError ValueError "day is out of range for month")
                  else Ok (y, m, dd)
              | Some (_, r) =>
                  Err (PyError ValueError ("unconverted data remains: " +:+ r))
              | None => no_match
              end
          | None => no_match
          end
      | _, _, _, _ => no_match
      end
  | _ => no_match
  end.

(** [f.readlines()] of a text already read. *)
Definition readlines (content : string) : list string :=
  match rev (split_on LF content) with
  | EmptyString :: ls => rev ls
  | ls => rev ls
  end.

(** ** app/main.py *)



Module main.

Definition call_llm (prompt : string) : M string :=
  r <- session_post ["headers"; "json"] prompt ;;
  lift (completion_content (snd r)).

Definition classify_prompt (task_description : string) : string :=
  "Classify this task into one of these categories:" +:+ NL +:+
  "        A1: datagen.py installation/running" +:+ NL +:+
  "        A2: markdown formatting" +:+ NL +:+
  "        A3: counting weekdays" +:+ NL +:+
  "        A4: sorting contacts" +:+ NL +:+
  "        A5: log file processing" +:+ NL +:+
  "        A6: markdown indexing" +:+ NL +:+
  "        A7: email extraction" +:+ NL +:+
  "        A8: credit card extraction" +:+ NL +:+
  "        A9: comment similarity" +:+ NL +:+
  "        A10: ticket sales calculation" +:+ NL +:+
  "        B3-B10: custom business tasks" +:+ NL +:+
  "        " +:+ NL +:+
  "        Task: " +:+ task_description +:+ NL +:+
  "        " +:+ NL +:+
  "        Return only the category (e.g. 'A1', 'B3').".

Definition classify_task (task_description : string) : M string :=
  r <- call_llm (classify_prompt task_description) ;;
  ret (strip r).

Definition files_prompt (task : string) : string :=
  "Extract input and output files from: " +:+ task +:+ NL +:+
  "        Return as JSON: {" +:+ dquote +:+ "input" +:+ dquote +:+ ": " +:+
  dquote +:+ "path" +:+ dquote +:+ ", " +:+ dquote +:+ "output" +:+ dquote +:+
  ": " +:+ dquote +:+ "path" +:+ dquote +:+ "}".

(** [open(x, mode)] for a value taken from a parsed reply: a string is a
    path and anything but a string or an integer is not one.  An integer
    (or a boolean) names a descriptor of the process: the world has none,
    and the model answers as the kernel does for a descriptor that is not
    open, where a server would read its standard input or write to its
    standard output. *)
Definition file_name (x : json) : result string :=
  match x with
  | JString s => Ok s
  | JInt _ | JBool _ => Err (PyError OSError "[Errno 9] Bad file descriptor")
  | _ => Err (PyError TypeError "expected str, bytes or os.PathLike object")
  end.

(** [sum(1 for date in dates if strptime(date, '%Y-%m-%d').weekday() == 2)] *)
Fixpoint count_wednesdays (dates : list string) : result Z :=
  match dates with
  | [] => Ok 0
  | date :: dates' =>
      match strptime date with
      | Err e => Err e
      | Ok (y, m, d) =>
          match count_wednesdays dates' with
          | Err e => Err e
          | Ok n => Ok (if weekday y m d =? 2 then 1 + n else n)
          end
      end
  end.

(** The body of [TaskHandler.handle_count_weekdays]. *)
Definition count_weekdays (task : string) : M json :=
  files_info <- call_llm (files_prompt task) ;;
  files <- lift (loads files_info) ;;
  input <- lift (getitem files "input") ;;
  input <- lift (file_name input) ;;
  content <- open_read input ;;
  let dates := map strip (readlines content) in
  count <- lift (count_wednesdays dates) ;;
  output <- lift (getitem files "output") ;;
  output <- lift (file_name output) ;;
  open_write output (str_int count) ;;;
  ret (JObject [("status", JString "success"); ("count", JInt count)]).

Definition custom_prompt (task : string) : string :=
  "Analyze this task and return:" +:+ NL +:+
  "        {" +:+ NL +:+
  "            " +:+ dquote +:+ "type" +:+ dquote +:+ ": " +:+ dquote +:+
  "api_fetch|git|sql|scraping|image|audio|markdown|csv" +:+ dquote +:+ "," +:+ NL +:+
  "            " +:+ dquote +:+ "parameters" +:+ dquote +:+
  ": {...task specific parameters...}" +:+ NL +:+
  "        }" +:+ NL +:+
  "        " +:+ NL +:+
  "        Task: " +:+ task.

(** The methods that [class TaskHandler] defines, among those that its two
    dict displays name; the others are announced by the comment "Additional
    handlers for A4-A10 would go here" and defined nowhere in main.py. *)
Definition defined (m : method) : bool :=
  match m with
  | handle_datagen | handle_format_markdown | handle_count_weekdays => true
  | _ => false
  end.

Definition method_name (m : method) : string :=
  match m with
  | handle_datagen => "handle_datagen"
  | handle_format_markdown => "handle_format_markdown"
  | handle_count_weekdays => "handle_count_weekdays"
  | handle_sort_contacts => "handle_sort_contacts"
  | handle_recent_logs => "handle_recent_logs"
  | handle_markdown_index => "handle_markdown_index"
  | handle_extract_email => "handle_extract_email"
  | handle_extract_card => "handle_extract_card"
  | handle_similar_comments => "handle_similar_comments"
  | handle_ticket_sales => "handle_ticket_sales"
  | handle_api_fetch => "handle_api_fetch"
  | handle_git_operations => "handle_git_operations"
  | handle_sql_query => "handle_sql_query"
  | handle_web_scraping => "handle_web_scraping"
  | handle_image_processing => "handle_image_processing"
  | handle_audio_transcription => "handle_audio_transcription"
  | handle_markdown_conversion => "handle_markdown_conversion"
  | handle_csv_filtering => "handle_csv_filtering"
  end.

(** [self.<name>] *)
Definition getattr (m : method) : result method :=
  if defined m then Ok m
  else Err (PyError AttributeError
              ("'TaskHandler' object has no attribute "
               +:+ squote +:+ method_name m +:+ squote)).

(** A dict display [{k1: self.m1, k2: self.m2, ...}]: the values are
    evaluated in the order written, into the dict built so far. *)
Fixpoint dict_display (items : list (string * method)) (d : gmap string method)
  : result (gmap string method) :=
  match items with
  | [] => Ok d
  | (k, m) :: items' =>
      match getattr m with
      | Ok v => dict_display items' (<[k := v]> d)
      | Err e => Err e
      end
  end.

(** The display of [handle_task]. *)
Definition handlers_display : list (string * method) :=
    [ ("A1", handle_datagen);
      ("A2", handle_format_markdown);
      ("A3", handle_count_weekdays);
      ("A4", handle_sort_contacts);
      ("A5", handle_recent_logs);
      ("A6", handle_markdown_index);
      ("A7", handle_extract_email);
      ("A8", handle_extract_card);
      ("A9", handle_similar_comments);
      ("A10", handle_ticket_sales) ].

(** The display of [handle_custom_task]. *)
Definition custom_handlers_display : list (string * method) :=
    [ ("api_fetch", handle_api_fetch);
      ("git", handle_git_operations);
      ("sql", handle_sql_query);
      ("scraping", handle_web_scraping);
      ("image", handle_image_processing);
      ("audio", handle_audio_transcription);
      ("markdown", handle_markdown_conversion);
      ("csv", handle_csv_filtering) ].

(** [table.get(key)] for a key taken from a parsed reply: a list or a dict
    cannot be hashed, a key that is not a string is in neither table. *)
Definition table_get (table : gmap string method) (key : json)
  : result (option method) :=
  match key with
  | JString s => Ok (table !! s)
  | JArray _ => Err (PyError TypeError "unhashable type: 'list'")
  | JObject _ => Err (PyError TypeError "unhashable type: 'dict'")
  | _ => Ok None
  end.

Section TaskHandler.

(** The work of [handle_datagen] and [handle_format_markdown], which
    download a script and run subprocesses: the world does not model it,
    and it is taken as given. *)
Variable external : method -> argument -> M json.

(** [await handler(argument)]; the call is recorded in the trace. *)
Definition invoke (handler : method) (a : argument) : M json :=
  log (EvInvoke handler a) ;;;
  match handler, a with
  | handle_count_weekdays, ArgTask task => count_weekdays task
  | _, _ => external handler a
  end.

Definition handle_custom_task (task : string) : M json :=
  task_info <- call_llm (custom_prompt task) ;;
  task_info <- lift (loads task_info) ;;
  handlers <- lift (dict_display custom_handlers_display ∅) ;;
  type <- lift (getitem task_info "type") ;;
  handler <- lift (table_get handlers type) ;;
  match handler with
  | None => raise (HTTPException 400 "Unsupported task type")
  | Some handler =>
      parameters <- lift (getitem task_info "parameters") ;;
      invoke handler (ArgParams parameters)
  end.

(** The [try] of [handle_task] has no [except] clause: what is raised
    inside it propagates. *)
Definition handle_task (task_description : string) : M json :=
  if str_contains ".." task_description
     || negb (startswith task_description "/data")
  then raise (HTTPException 400 "Invalid path access")
  else
    task_type <- classify_task task_description ;;
    handlers <- lift (dict_display handlers_display ∅) ;;
    match handlers !! task_type with
    | Some handler => invoke handler (ArgTask task_description)
    | None => handle_custom_task task_description
    end.

(** [TaskHandler()] *)
Definition TaskHandler : M unit :=
  fun w => match w_token w with
           | None | Some EmptyString =>
               (w, Err (PyError ValueError
                          "AIPROXY_TOKEN environment variable not set"))
           | Some _ => (w, Ok tt)
           end.

(** [except HTTPException as e: raise e]
    [except Exception as e: raise HTTPException(500, str(e))] *)
Definition reraise (e : exn) : exn :=
  match e with
  | HTTPException _ _ => e
  | _ => HTTPException 500 (str_exn e)
  end.

(** POST /run *)
Definition run_task (task : string) : M json :=
  try_exceptM
    (TaskHandler ;;;
     result <- handle_task task ;;
     ret (JObject [("status", JString "success"); ("result", result)]))
    reraise.

End TaskHandler.

(** GET /read; [HTTPException(status_code=404)] carries the phrase of the
    status as its detail. *)
Definition read_file (path : string) : M string :=
  try_exceptM
    (if negb (startswith path "/data/")
     then raise (HTTPException 400 "Access denied")
     else
       let file_path := Path path in
       fun w =>
         if negb (exists_ (w_fs w) file_path)
         then (w, Err (HTTPException 404 "Not Found"))
         else open_read (str_path file_path) w)
    reraise.

End main.

(** ** Fixtures *)

Definition w0 : world := mkWorld fs0 [] [] (Some "token").

(** External methods that do nothing and answer null. *)
Definition ext0 : method -> argument -> M json := fun _ _ => ret JNull.

Definition quoted (s : string) : string := dquote +:+ s +:+ dquote.

(** Seven dates, of which 2024-01-03 and 2024-01-10 are Wednesdays. *)
Definition dates7 : string :=
  "2024-01-01" +:+ NL +:+ "2024-01-02" +:+ NL +:+ "2024-01-03" +:+ NL +:+
  "2024-01-04" +:+ NL +:+ "2024-01-05" +:+ NL +:+ "2024-01-10" +:+ NL +:+
  "2024-01-13" +:+ NL.

Definition fs_dates : filesystem :=
  mkFS [] (<[ ["data"; "dates.txt"] := File dates7 ]> (nodes fs0)).

Definition weekday_task : string :=
  "How many Wednesdays are in /data/dates.txt? Write the count to /data/dates-wednesdays.txt".

Definition files_reply : string :=
  "{" +:+ quoted "input" +:+ ": " +:+ quoted "/data/dates.txt" +:+ ", " +:+
  quoted "output" +:+ ": " +:+ quoted "/data/dates-wednesdays.txt" +:+ "}".

Definition custom_reply (type : string) : string :=
  "{" +:+ quoted "type" +:+ ": " +:+ quoted type +:+ ", " +:+
  quoted "parameters" +:+ ": {}}".

Definition w_flaky : world :=
  mkWorld fs_dates [TransportFailure; Response 200 (Completion "A3")] []
    (Some "token").

Definition contacts_task : string := "/data/contacts.json holds the contacts to process".


Definition w_unsupported : world :=
  mkWorld fs0
    [Response 200 (Completion "B7"); Response 200 (Completion (custom_reply "video"))]
    [] (Some "token").


Definition contacts_record : json :=
  JArray
    [ JObject [("first_name", JString "Ada"); ("last_name", JString "Lovelace");
               ("age", JInt 36); ("tags", JArray [JString "a b"; JNull])];
      JObject [("first_name", JString ("Alan" +:+ NL +:+ dquote));
               ("last_name", JString "Turing"); ("age", JInt (-1));
               ("active", JBool true); ("extra", JObject [])] ].

(** The data directory with a link that leads out of it. *)
Definition fs_link : filesystem :=
  mkFS [] (<[ ["data"; "link"] := Symlink "/etc" ]> (nodes fs0)).

(** The guard of [handle_task]. *)
Definition guard_rejects (task_description : string) : bool :=
  str_contains ".." task_description || negb (startswith task_description "/data").

(** ** Vocabulary of the properties *)

Fixpoint is_prefix (l1 l2 : list string) : bool :=
  match l1, l2 with
  | [], _ => true
  | x :: l1', y :: l2' => String.eqb x y && is_prefix l1' l2'
  | _ :: _, [] => false
  end.

(** [path] is [dir] or lies below it. *)
Definition lies_under (dir path : PurePath) : bool :=
  String.eqb (root dir) (root path) && is_prefix (parts dir) (parts path).

(** The world after one request with [prompt] has been answered. *)
Definition answered (prompt : string) (rest : list llm_outcome) (w : world) : world :=
  mkWorld (w_fs w) rest (EvLLM prompt :: w_trace w) (w_token w).

(** Two file systems with the same working directory and the same links. *)
Definition same_links (fs fs' : filesystem) : Prop :=
  cwd fs = cwd fs'
  /\ forall x t, nodes fs !! x = Some (Symlink t) <-> nodes fs' !! x = Some (Symlink t).


Section json_induction.
Variable P : json -> Prop.
Hypothesis HNull : P JNull.
Hypothesis HBool : forall b, P (JBool b).
Hypothesis HInt : forall n, P (JInt n).
Hypothesis HString : forall s, P (JString s).
Hypothesis HArray : forall l, Forall P l -> P (JArray l).
Hypothesis HObject : forall d, Forall (fun kv => P (snd kv)) d -> P (JObject d).

Fixpoint json_ind (v : json) : P v :=
  match v with
  | JNull => HNull
  | JBool b => HBool b
  | JInt n => HInt n
  | JString s => HString s
  | JArray l =>
      HArray l ((fix all (l : list json) : Forall P l :=
                   match l with
                   | [] => List.Forall_nil P
                   | x :: l' => List.Forall_cons P x l' (json_ind x) (all l')
                   end) l)
  | JObject d =>
      HObject d ((fix all (d : list (string * json))
                    : Forall (fun kv => P (snd kv)) d :=
                    match d with
                    | [] => List.Forall_nil _
                    | kv :: d' =>
                        List.Forall_cons (fun kv => P (snd kv)) kv d'
                          (json_ind (snd kv)) (all d')
                    end) d)
  end.
End json_induction.

(** The number of values in [v], [v] included. *)
Fixpoint json_size (v : json) : nat :=
  match v with
  | JArray l =>
      S ((fix sum (l : list json) : nat :=
            match l with
            | [] => 0
            | x :: l' => S (json_size x + sum l')
            end) l)%nat
  | JObject d =>
      S ((fix sum (d : list (string * json)) : nat :=
            match d with
            | [] => 0
            | (_, x) :: d' => S (json_size x + sum d')
            end) d)%nat
  | _ => 1%nat
  end.

Fixpoint distinct (l : list string) : bool :=
  match l with
  | [] => true
  | k :: l' => negb (existsb (String.eqb k) l') && distinct l'
  end.

(** A value as Python holds it: no dict has a key twice. *)
Fixpoint wf_json (v : json) : bool :=
  match v with
  | JArray l => forallb wf_json l
  | JObject d =>
      distinct (map fst d)
      && (fix all (d : list (string * json)) : bool :=
            match d with
            | [] => true
            | (_, x) :: d' => wf_json x && all d'
            end) d
  | _ => true
  end.

(** What may follow a number: not a digit, and nothing that would make the
    number a float. *)
Definition delimited (rest : string) : bool :=
  match rest with
  | EmptyString => true
  | String c _ =>
      negb (is_digit c || Ascii.eqb c "." || Ascii.eqb c "e" || Ascii.eqb c "E")
  end.

(** A text that starts like a number is read as a number. *)
Definition number_start (c : ascii) : bool := is_digit c || Ascii.eqb c "-".

(** The characters a printed value can start with. *)
Definition value_start (c : ascii) : bool :=
  number_start c || Ascii.eqb c DQ || Ascii.eqb c "[" || Ascii.eqb c "{"
  || Ascii.eqb c "n" || Ascii.eqb c "t" || Ascii.eqb c "f".

(** The items of an array after the first, as [iterencode] prints them. *)
Fixpoint array_tail (level : nat) (l : list json) : string :=
  match l with
  | [] => EmptyString
  | y :: l' =>
      "," +:+ newline_indent level +:+ iterencode level y +:+ array_tail level l'
  end.

Fixpoint object_tail (level : nat) (d : list (string * json)) : string :=
  match d with
  | [] => EmptyString
  | (k, y) :: d' =>
      "," +:+ newline_indent level +:+ encode_basestring_ascii k +:+ ": " +:+
      iterencode level y +:+ object_tail level d'
  end.

Fixpoint array_size (l : list json) : nat :=
  match l with
  | [] => 0
  | x :: l' => S (json_size x + array_size l')
  end.

Fixpoint object_size (d : list (string * json)) : nat :=
  match d with
  | [] => 0
  | (_, x) :: d' => S (json_size x + object_size d')
  end.

(** The printed form of [v], followed by [rest], is read back as [v]. *)
Definition reads_back (v : json) : Prop :=
  wf_json v = true ->
  forall (level fuel : nat) (rest : string),
    (json_size v <= fuel)%nat ->
    delimited rest = true ->
    scan_once fuel (iterencode level v +:+ rest) = Some (v, rest).

Fixpoint has_char (c : ascii) (s : string) : bool :=
  match s with
  | EmptyString => false
  | String x s' => Ascii.eqb x c || has_char c s'
  end.

(** ** app/handlers/operations.py: the email task *)
Module operations.

Definition email_prompt (email_content : string) : string :=
  "Extract only the sender's email address from this email:" +:+ NL +:+ NL +:+
  email_content.

(** [OperationsHandler.handle_extract_email] *)
Definition handle_extract_email (task_description : string) : M json :=
  try_exceptM
    (let email_file := joinpath DATA_DIR (Path "email.txt") in
     let output_file := joinpath DATA_DIR (Path "email-sender.txt") in
     email_content <- file_ops.read_file email_file ;;
     r <- llm.call_llm (email_prompt email_content) ;;
     let email_address := strip r in
     file_ops.write_file output_file email_address ;;;
     ret (JObject [("status", JString "success");
                   ("email", JString email_address)]))
    (fun e => HTTPException 500 (str_exn e)).

End operations.

(** ** app/main.py: the version that handle_format_markdown installs

    This is [TaskHandler.handle_format_markdown] of main.py.  Its namesake
    in handlers/operations.py has the same lines, in a module that does not
    import [re]: there the search is a NameError and no command is run. *)

Definition is_version_char (c : ascii) : bool := is_digit c || Ascii.eqb c ".".

(** The longest run of digits and dots at the head of [s]. *)
Fixpoint span_version (s : string) : string :=
  match s with
  | String c s' => if is_version_char c then String c (span_version s') else EmptyString
  | EmptyString => EmptyString
  end.

Fixpoint drop_chars (n : nat) (s : string) : string :=
  match n, s with
  | S n', String _ s' => drop_chars n' s'
  | _, _ => s
  end.

(** [re.search(r'prettier@([\d.]+)', task)]: the group of the leftmost
    match, if there is one. *)
Fixpoint search_prettier (task : string) : option string :=
  let here :=
    if startswith task "prettier@" then
      match span_version (drop_chars 9 task) with
      | EmptyString => None
      | v => Some v
      end
    else None in
  match here with
  | Some v => Some v
  | None =>
      match task with
      | EmptyString => None
      | String _ task' => search_prettier task'
      end
  end.

(** The version that [handle_format_markdown] hands to npm. *)
Definition prettier_version (task : string) : string :=
  match search_prettier task with
  | Some v => v
  | None => "3.4.2"
  end.

(** The arguments of the first subprocess of [handle_format_markdown]. *)
Definition npm_install_argv (task : string) : list string :=
  ["npm"; "install"; "-g"; "prettier@" +:+ prettier_version task].

(** ** Vocabulary of the further properties *)




(** [path] lies below [dir] and is not [dir]. *)
Definition strictly_under (dir path : PurePath) : bool :=
  lies_under dir path && negb (bool_decide (path = dir)).


(** A file system where the email of the email task is in place. *)
(** Every character of [s] passes [f]. *)
Fixpoint all_chars (f : ascii -> bool) (s : string) : bool :=
  match s with
  | EmptyString => true
  | String c s' => f c && all_chars f s'
  end.







(** [r] is a value, or an HTTPException whose status is one of [statuses]. *)
Definition fails_only_with {A} (statuses : list Z) (r : result A) : Prop :=
  match r with
  | Ok _ => True
  | Err e => exists status detail,
      e = HTTPException status detail /\ In status statuses
  end.



(** * Properties *)

(** ** The guard of handle_task *)

(** C10: a description that contains ".." or does not begin with "/data" is
    rejected with HTTP 400 "Invalid path access"; the world is left as it
    was, so no classification request was sent. *)
Theorem handle_task_guard_rejects :
  forall external (d : string) (w : world),
    str_contains ".." d = true \/ startswith d "/data" = false ->
    main.handle_task external d w
    = (w, Err (HTTPException 400 "Invalid path access")).
Proof.
  intros external d w H. unfold main.handle_task.
  destruct H as [H | H]; rewrite H; simpl.
  - reflexivity.
  - rewrite orb_true_r. reflexivity.
Qed.

Lemma handle_task_guard_rejects_witness :
  (str_contains ".." "Sort the contacts... then stop" = true
   \/ startswith "Sort the contacts... then stop" "/data" = false)
  /\ main.handle_task ext0 "Sort the contacts... then stop" w0
     = (w0, Err (HTTPException 400 "Invalid path access")).
Proof.
  split.
  - left. reflexivity.
  - apply handle_task_guard_rejects. left. reflexivity.
Defined.

(** C9: the weekday task of the scenario is an English sentence, so the
    guard of [handle_task] rejects it before anything is classified or
    written. *)
Theorem weekday_task_rejected :
  forall external (w : world),
    main.handle_task external weekday_task w
    = (w, Err (HTTPException 400 "Invalid path access")).
Proof.
  intros external w. unfold main.handle_task.
  replace (str_contains ".." weekday_task
           || negb (startswith weekday_task "/data")) with true
    by (vm_compute; reflexivity).
  reflexivity.
Qed.

(** The handler of the scenario is sound by itself: entered with the replies
    and the dates file of the scenario it writes "2". *)
Lemma count_weekdays_scenario :
  let w := mkWorld fs_dates [Response 200 (Completion files_reply)] [] (Some "token") in
  snd (main.count_weekdays weekday_task w)
  = Ok (JObject [("status", JString "success"); ("count", JInt 2)])
  /\ nodes (w_fs (fst (main.count_weekdays weekday_task w)))
       !! ["data"; "dates-wednesdays.txt"] = Some (File "2").
Proof. vm_compute. split; reflexivity. Qed.

(** ** The read endpoint *)

(** C2: GET /read with "/data/../etc/passwd" passes the prefix test, and the
    password file is opened and returned. *)
Theorem read_endpoint_traversal :
  main.read_file "/data/../etc/passwd" w0
  = (mkWorld fs0 [] [EvOpen "r" ["etc"; "passwd"]] (Some "token"),
     Ok "root:x:0:0").
Proof. vm_compute. reflexivity. Qed.

(** The accessor of utils/file_ops.py refuses the same path and opens
    nothing. *)
Lemma file_ops_read_file_traversal :
  file_ops.read_file (Path "/data/../etc/passwd") w0
  = (w0, Err (HTTPException 400
                "Invalid path: 400: Access denied: Path outside allowed directories")).
Proof. vm_compute. reflexivity. Qed.

(** On no file system does the endpoint answer that path with HTTP 400. *)
Lemma read_endpoint_traversal_never_400 :
  forall (w : world) (detail : string),
    snd (main.read_file "/data/../etc/passwd" w) <> Err (HTTPException 400 detail).
Proof.
  intros w detail. unfold main.read_file, try_exceptM.
  replace (negb (startswith "/data/../etc/passwd" "/data/")) with false
    by (vm_compute; reflexivity).
  cbv iota.
  destruct (exists_ (w_fs w) (Path "/data/../etc/passwd")); simpl.
  - unfold open_read.
    replace (str_contains NUL (str_path (Path "/data/../etc/passwd"))) with false
      by (vm_compute; reflexivity).
    cbv iota.
    destruct (lookup_path (w_fs w) (str_path (Path "/data/../etc/passwd")))
      as [[] | [q [[ | c | t] | ]]]; simpl; congruence.
  - congruence.
Qed.

(** ** The path sandbox *)

Lemma proper_prefixes_is_prefix (l ps : list string) :
  l ∈ proper_prefixes ps -> is_prefix l ps = true.
Proof.
  revert l. induction ps as [ | x ps IH]; intros l Hl; simpl in Hl.
  - inversion Hl.
  - apply elem_of_cons in Hl as [-> | Hl]; [reflexivity | ].
    apply list_elem_of_fmap in Hl as (l' & -> & Hl').
    simpl. rewrite String.eqb_refl. simpl. apply IH, Hl'.
Qed.

Lemma parents_lies_under (d q : PurePath) :
  d ∈ parents q -> lies_under d q = true.
Proof.
  unfold parents. intros Hd.
  apply list_elem_of_fmap in Hd as (l & -> & Hl).
  apply list_elem_of_In, in_rev, list_elem_of_In in Hl.
  unfold lies_under. simpl. rewrite String.eqb_refl. simpl.
  apply proper_prefixes_is_prefix, Hl.
Qed.

(** Whatever goes wrong in [validate_path], the error is an HTTP 400. *)
Lemma validate_path_error (fs : filesystem) (p : PurePath) (e : exn) :
  security.validate_path fs p = Err e ->
  exists detail, e = HTTPException 400 detail.
Proof.
  unfold security.validate_path, try_except.
  destruct (match resolve fs p with Ok _ => _ | Err _ => _ end);
    intros H; inversion H; eauto.
Qed.

(** What [validate_path] returns is the resolved path, and one of the
    allowed directories is a proper ancestor of it. *)
Lemma validate_path_ok (fs : filesystem) (p q : PurePath) :
  security.validate_path fs p = Ok q ->
  resolve fs p = Ok q
  /\ (exists d, d ∈ ALLOWED_DIRS /\ d ∈ parents q)
  /\ str_contains ".." (str_path q) = false.
Proof.
  unfold security.validate_path, try_except.
  destruct (resolve fs p) as [q' | e]; [ | discriminate].
  destruct (existsb _ ALLOWED_DIRS) eqn:Hex; simpl; [ | discriminate].
  destruct (str_contains ".." (str_path q')) eqn:Hdd; [discriminate | ].
  intros [= <-]. split; [reflexivity | split; [ | assumption]].
  apply existsb_exists in Hex as (d & Hin & Hd).
  exists d. split.
  - apply list_elem_of_In, Hin.
  - apply bool_decide_eq_true in Hd. exact Hd.
Qed.

(** C1: a path whose resolved form lies under none of the allowed
    directories is refused with HTTP 400, and no path is returned. *)
Theorem validate_path_outside_rejected :
  forall (fs : filesystem) (p q : PurePath),
    resolve fs p = Ok q ->
    (forall d, d ∈ ALLOWED_DIRS -> lies_under d q = false) ->
    (exists detail, security.validate_path fs p = Err (HTTPException 400 detail))
    /\ (forall r, security.validate_path fs p <> Ok r).
Proof.
  intros fs p q Hres Hout.
  assert (Hno : forall r, security.validate_path fs p <> Ok r).
  { intros r Hr. apply validate_path_ok in Hr as (Hres' & (d & Hd & Hpar) & _).
    rewrite Hres in Hres'. injection Hres' as <-.
    apply parents_lies_under in Hpar. rewrite (Hout d Hd) in Hpar. discriminate. }
  split; [ | exact Hno].
  destruct (security.validate_path fs p) as [r | e] eqn:E.
  - exfalso. exact (Hno r eq_refl).
  - apply validate_path_error in E as (detail & ->). eauto.
Qed.

Lemma validate_path_outside_rejected_witness :
  (exists detail,
      security.validate_path fs0 (Path "/data/../etc/passwd")
      = Err (HTTPException 400 detail))
  /\ (forall r, security.validate_path fs0 (Path "/data/../etc/passwd") <> Ok r).
Proof.
  apply (validate_path_outside_rejected fs0 (Path "/data/../etc/passwd")
           (Path "/etc/passwd")).
  - vm_compute. reflexivity.
  - intros d Hd. apply list_elem_of_In in Hd. simpl in Hd.
    destruct Hd as [<- | []]. vm_compute. reflexivity.
Defined.

(** A link inside the data directory that leads out of it is followed
    before the test, so the path behind it is refused. *)
Lemma validate_path_symlink_escape :
  resolve fs_link (Path "/data/link/passwd") = Ok (Path "/etc/passwd")
  /\ security.validate_path fs_link (Path "/data/link/passwd")
     = Err (HTTPException 400
              "Invalid path: 400: Access denied: Path outside allowed directories").
Proof. vm_compute. split; reflexivity. Qed.

(** C3: [validate_path] looks for ".." in the path only after resolving it,
    so a raw ".." segment that resolves into the data directory passes. *)
Theorem validate_path_accepts_raw_dotdot :
  ".." ∈ parts (Path "/data/sub/../file")
  /\ security.validate_path fs0 (Path "/data/sub/../file")
     = Ok (Path "/data/file").
Proof. split; [ | vm_compute; reflexivity]. vm_compute. set_solver. Qed.

(** The test for ".." that [validate_path] does make is on the text of the
    resolved path: a file name with two dots in a row is refused. *)
Lemma validate_path_rejects_dotted_name :
  security.validate_path fs0 (Path "/data/a..b")
  = Err (HTTPException 400 "Invalid path: 400: Access denied: Invalid path").
Proof. vm_compute. reflexivity. Qed.

(** ** Outbound model calls *)

Lemma session_post_accepted (prompt : string) :
  session_post ["headers"; "json"] prompt = http_post prompt.
Proof. reflexivity. Qed.

Lemma session_post_rejected (prompt : string) (w : world) :
  session_post ["headers"; "json"; "verify"] prompt w
  = (w, Err (PyError TypeError
               "ClientSession._request() got an unexpected keyword argument 'verify'")).
Proof. reflexivity. Qed.

(** What utils/llm.py's [call_llm] does with a token in place: the call of
    [session.post] is a TypeError, which the except clause turns into an
    HTTP 500; nothing has been sent. *)
Lemma llm_call_llm_rejected (prompt tok : string) (w : world) :
  w_token w = Some tok -> tok <> EmptyString ->
  llm.call_llm prompt w
  = (w, Err (HTTPException 500
               "LLM API error: ClientSession._request() got an unexpected keyword argument 'verify'")).
Proof.
  intros Htok Hne. unfold llm.call_llm. rewrite Htok.
  destruct tok as [ | a tok]; [congruence | ].
  unfold try_exceptM, bind. rewrite session_post_rejected. reflexivity.
Qed.

(** No call of utils/llm.py's [call_llm] returns a text or touches the
    world. *)
Lemma llm_call_llm_fails (prompt : string) (w : world) :
  exists e, llm.call_llm prompt w = (w, Err e).
Proof.
  unfold llm.call_llm.
  destruct (w_token w) as [[ | a tok] | ]; eauto.
Qed.


Lemma call_llm_transport_failure (prompt : string)
    (rest : list llm_outcome) (w : world) :
  w_llm w = TransportFailure :: rest ->
  main.call_llm prompt w
  = (answered prompt rest w, Err (PyError ClientError "Cannot connect to host")).
Proof.
  intros H. unfold main.call_llm. rewrite session_post_accepted.
  unfold bind, http_post. rewrite H. reflexivity.
Qed.

(** Every call of main.py's [call_llm] sends one request and consumes one
    outcome of the service, whatever the outcome is. *)
Lemma main_call_llm_one_request (prompt : string) (w : world) :
  fst (main.call_llm prompt w) = answered prompt (tail (w_llm w)) w.
Proof.
  unfold main.call_llm. rewrite session_post_accepted.
  unfold bind, http_post, lift.
  destruct (w_llm w) as [ | [ | status body] rest]; reflexivity.
Qed.

(** C8, as the code has it: no model call is retried.  main.py's [call_llm],
    which the dispatcher uses, sends exactly one request whatever comes of
    it; when that request fails in transport the error propagates and the
    dispatcher ends in it, with the outcomes that a second request would
    have met left unconsumed.  utils/llm.py's [call_llm] always raises, and
    consumes no outcome beyond the first. *)
Theorem call_llm_does_not_retry :
  forall external (d prompt : string) (w : world) (rest : list llm_outcome),
    guard_rejects d = false ->
    w_llm w = TransportFailure :: rest ->
    (forall w0, fst (main.call_llm prompt w0) = answered prompt (tail (w_llm w0)) w0)
    /\ main.call_llm prompt w
       = (answered prompt rest w, Err (PyError ClientError "Cannot connect to host"))
    /\ main.handle_task external d w
       = (answered (main.classify_prompt d) rest w,
          Err (PyError ClientError "Cannot connect to host"))
    /\ is_ok (snd (llm.call_llm prompt w)) = false
    /\ (w_llm (fst (llm.call_llm prompt w)) = w_llm w
        \/ w_llm (fst (llm.call_llm prompt w)) = rest).
Proof.
  intros external d prompt w rest Hg Hllm.
  split; [intros w0; apply main_call_llm_one_request | ].
  split; [apply call_llm_transport_failure, Hllm | ].
  split.
  - unfold main.handle_task. fold (guard_rejects d). rewrite Hg.
    unfold main.classify_task, bind at 1. unfold bind at 1.
    rewrite (call_llm_transport_failure _ rest w Hllm). reflexivity.
  - destruct (llm_call_llm_fails prompt w) as [e ->]. simpl. auto.
Qed.

Lemma call_llm_does_not_retry_witness :
  (forall w0, fst (main.call_llm "hello" w0) = answered "hello" (tail (w_llm w0)) w0)
  /\ main.call_llm "hello" w_flaky
     = (answered "hello" [Response 200 (Completion "A3")] w_flaky,
        Err (PyError ClientError "Cannot connect to host"))
  /\ main.handle_task ext0 "/data/dates.txt: count the Wednesdays" w_flaky
     = (answered (main.classify_prompt "/data/dates.txt: count the Wednesdays")
          [Response 200 (Completion "A3")] w_flaky,
        Err (PyError ClientError "Cannot connect to host"))
  /\ is_ok (snd (llm.call_llm "hello" w_flaky)) = false
  /\ (w_llm (fst (llm.call_llm "hello" w_flaky)) = w_llm w_flaky
      \/ w_llm (fst (llm.call_llm "hello" w_flaky)) = [Response 200 (Completion "A3")]).
Proof.
  apply (call_llm_does_not_retry ext0 "/data/dates.txt: count the Wednesdays"
           "hello" w_flaky [Response 200 (Completion "A3")]).
  - vm_compute. reflexivity.
  - reflexivity.
Defined.

(** Against C8 as stated: one timeout followed by an answer that a retry
    would have received.  The classifier of the dispatcher fails, the
    request to POST /run ends in HTTP 500, and the answer stays unread; the
    classifier of utils/llm.py fails too, with everything unread. *)
Lemma retry_counterexample :
  snd (main.classify_task "/data/dates.txt: count the Wednesdays" w_flaky)
  = Err (PyError ClientError "Cannot connect to host")
  /\ main.run_task ext0 "/data/dates.txt: count the Wednesdays" w_flaky
     = (mkWorld fs_dates [Response 200 (Completion "A3")]
          [EvLLM (main.classify_prompt "/data/dates.txt: count the Wednesdays")]
          (Some "token"),
        Err (HTTPException 500 "Cannot connect to host"))
  /\ llm.classify_task "/data/dates.txt: count the Wednesdays" w_flaky
     = (w_flaky,
        Err (HTTPException 500
               "LLM API error: ClientSession._request() got an unexpected keyword argument 'verify'")).
Proof. vm_compute. repeat split; reflexivity. Qed.

(** ** The dispatcher *)

(** The display of [handle_task] cannot be evaluated: its fourth value is
    a method that the class does not have. *)
Lemma handlers_display_fails :
  main.dict_display main.handlers_display ∅
  = Err (PyError AttributeError
           "'TaskHandler' object has no attribute 'handle_sort_contacts'").
Proof. reflexivity. Qed.

(** Nor can the display of [handle_custom_task]: its first value is
    missing already. *)
Lemma custom_handlers_display_fails :
  main.dict_display main.custom_handlers_display ∅
  = Err (PyError AttributeError
           "'TaskHandler' object has no attribute 'handle_api_fetch'").
Proof. reflexivity. Qed.






(** C7: the dispatcher has the failure of the claim, HTTP 400 "Unsupported
    task type", but cannot reach it.  With the category "B7", which the
    table of [handle_task] does not list, and the task type "video", which
    the table of [handle_custom_task] does not list, POST /run answers HTTP
    500 for the attribute that is missing from the first display, after the
    one request of the classifier; nothing has been looked up and no
    executor has been invoked.  Entered by itself, [handle_custom_task]
    fails on its own display in the same way. *)
Theorem unsupported_category_unreachable :
  main.run_task ext0 contacts_task w_unsupported
  = (mkWorld fs0 [Response 200 (Completion (custom_reply "video"))]
       [EvLLM (main.classify_prompt contacts_task)] (Some "token"),
     Err (HTTPException 500
            "'TaskHandler' object has no attribute 'handle_sort_contacts'"))
  /\ main.handle_custom_task ext0 contacts_task
       (mkWorld fs0 [Response 200 (Completion (custom_reply "video"))] []
          (Some "token"))
     = (mkWorld fs0 [] [EvLLM (main.custom_prompt contacts_task)] (Some "token"),
        Err (PyError AttributeError
               "'TaskHandler' object has no attribute 'handle_api_fetch'")).
Proof. vm_compute. split; reflexivity. Qed.

(** On no input does the dispatcher answer "Unsupported task type". *)
Lemma handle_task_never_unsupported external (d : string) (w : world) :
  snd (main.handle_task external d w)
  <> Err (HTTPException 400 "Unsupported task type").
Proof.
  unfold main.handle_task.
  destruct (str_contains ".." d || negb (startswith d "/data")); [discriminate | ].
  unfold bind at 1.
  destruct (main.classify_task d w) as [w1 [t | e]] eqn:E.
  - unfold bind, lift. rewrite handlers_display_fails. discriminate.
  - simpl. intros [= ->].
    unfold main.classify_task, bind, main.call_llm in E.
    rewrite session_post_accepted in E. unfold bind, http_post, lift in E.
    destruct (w_llm w) as [ | [ | status [c | | ]] rest]; simpl in E; discriminate.
Qed.

(** ** The storage accessors *)


Lemma joinrealpath_cons (fuel : nat) (fs : filesystem) (path : list string)
    (name : string) (rest : list string) :
  joinrealpath (S fuel) fs path (name :: rest)
  = if String.eqb name "" || String.eqb name "."
    then joinrealpath (S fuel) fs path rest
    else if String.eqb name ".."
    then joinrealpath (S fuel) fs (removelast path) rest
    else match nodes fs !! (path ++ [name]) with
         | Some (Symlink target) =>
             joinrealpath fuel fs (if is_abs target then [] else path)
               (split_on "/" target ++ rest)
         | _ => joinrealpath (S fuel) fs (path ++ [name]) rest
         end.
Proof. reflexivity. Qed.

Lemma namei_nil (fuel : nat) (fs : filesystem) (cur : list string) :
  namei (S fuel) fs cur [] = inr (cur, Some Dir).
Proof. reflexivity. Qed.

Lemma namei_cons (fuel : nat) (fs : filesystem) (cur : list string)
    (name : string) (rest : list string) :
  namei (S fuel) fs cur (name :: rest)
  = if String.eqb name "" || String.eqb name "."
    then namei (S fuel) fs cur rest
    else if String.eqb name ".."
    then namei (S fuel) fs (removelast cur) rest
    else match nodes fs !! (cur ++ [name]) with
         | None => match rest with
                   | [] => inr (cur ++ [name], None)
                   | _ => inl ENOENT
                   end
         | Some Dir => namei (S fuel) fs (cur ++ [name]) rest
         | Some (File c) => match rest with
                            | [] => inr (cur ++ [name], Some (File c))
                            | _ => inl ENOTDIR
                            end
         | Some (Symlink target) =>
             if String.eqb target "" then inl ENOENT
             else namei fuel fs (if is_abs target then [] else cur)
                    (split_on "/" target ++ rest)
         end.
Proof. reflexivity. Qed.

Lemma same_links_refl (fs : filesystem) : same_links fs fs.
Proof. split; [reflexivity | tauto]. Qed.

Lemma same_links_trans (a b c : filesystem) :
  same_links a b -> same_links b c -> same_links a c.
Proof.
  intros [H1 H2] [H3 H4]. split; [congruence | ].
  intros x t. rewrite H2. apply H4.
Qed.

(** Putting a directory or a file where no link was keeps the links. *)
Lemma same_links_insert (fs : filesystem) (q : list string) (n : node) :
  (forall t, nodes fs !! q <> Some (Symlink t)) ->
  (forall t, n <> Symlink t) ->
  same_links fs (mkFS (cwd fs) (<[q := n]> (nodes fs))).
Proof.
  intros Hold Hnew. split; [reflexivity | ].
  intros x t. simpl. destruct (decide (q = x)) as [<- | Hne].
  - rewrite lookup_insert_eq. split; intros H.
    + exfalso. exact (Hold t H).
    + injection H as ->. exfalso. exact (Hnew t eq_refl).
  - rewrite lookup_insert_ne by exact Hne. tauto.
Qed.

(** Resolution looks at nothing but the links. *)
Lemma joinrealpath_same_links (fs fs' : filesystem) :
  same_links fs fs' ->
  forall fuel path rest,
    joinrealpath fuel fs path rest = joinrealpath fuel fs' path rest.
Proof.
  intros [_ Hl]. induction fuel as [ | fuel IHf]; [reflexivity | ].
  intros path rest. revert path.
  induction rest as [ | name rest IHr]; intros path; [reflexivity | ].
  rewrite !joinrealpath_cons.
  destruct (String.eqb name "" || String.eqb name "."); [apply IHr | ].
  destruct (String.eqb name ".."); [apply IHr | ].
  destruct (nodes fs !! (path ++ [name])) as [[ | c | t] | ] eqn:E;
    destruct (nodes fs' !! (path ++ [name])) as [[ | c' | t'] | ] eqn:E';
    try apply IHr;
    try (apply Hl in E; congruence);
    try (apply Hl in E'; congruence).
  apply Hl in E. rewrite E in E'. injection E' as <-. apply IHf.
Qed.

Lemma resolve_same_links (fs fs' : filesystem) (p : PurePath) :
  same_links fs fs' -> resolve fs p = resolve fs' p.
Proof.
  intros H. unfold resolve.
  rewrite (joinrealpath_same_links fs fs' H). destruct H as [-> _]. reflexivity.
Qed.

Lemma validate_path_same_links (fs fs' : filesystem) (p : PurePath) :
  same_links fs fs' -> security.validate_path fs p = security.validate_path fs' p.
Proof.
  intros H. unfold security.validate_path.
  rewrite (resolve_same_links fs fs' p H). reflexivity.
Qed.

Lemma os_mkdir_same_links (fs fs' : filesystem) (ps : list string) :
  os_mkdir fs ps = inr fs' -> same_links fs fs'.
Proof.
  unfold os_mkdir. destruct (last ps) as [name | ]; [ | discriminate].
  destruct (namei _ fs [] (removelast ps)) as [e | [q [[ | c | t] | ]]];
    try discriminate.
  destruct (String.eqb name ".." || String.eqb name "."); [discriminate | ].
  destruct (nodes fs !! (q ++ [name])) eqn:E; [discriminate | ].
  intros [= <-]. apply same_links_insert; congruence.
Qed.

Lemma mkdir_parents_same_links (rev_parts : list string) :
  forall (fs fs' : filesystem) (r : result unit),
    mkdir_parents fs rev_parts = (fs', r) -> same_links fs fs'.
Proof.
  induction rev_parts as [ | name rev_parent IH]; intros fs fs' r; simpl.
  - destruct (os_mkdir fs (rev [])) as [[] | fs1] eqn:E;
      try (destruct (is_dir fs _)); intros [= <- <-];
      try apply same_links_refl.
  - destruct (os_mkdir fs (rev rev_parent ++ [name])) as [e | fs1] eqn:E.
    + destruct e; try (destruct (is_dir fs _); intros [= <- <-]; apply same_links_refl).
      destruct (mkdir_parents fs rev_parent) as [fs1 [[] | e1]] eqn:E1.
      * apply IH in E1.
        destruct (os_mkdir fs1 (rev rev_parent ++ [name])) as [e2 | fs2] eqn:E2.
        -- destruct e2; try (destruct (is_dir fs1 _)); intros [= <- <-]; exact E1.
        -- intros [= <- <-]. apply os_mkdir_same_links in E2.
           exact (same_links_trans _ _ _ E1 E2).
      * intros [= <- <-]. apply IH in E1. exact E1.
    + intros [= <- <-]. apply os_mkdir_same_links in E. exact E.
Qed.

(** A lookup that ends on a missing name or on a file names that node. *)
Lemma namei_node (fs : filesystem) :
  forall fuel cur rest q o,
    namei fuel fs cur rest = inr (q, o) -> o = Some Dir \/ nodes fs !! q = o.
Proof.
  induction fuel as [ | fuel IHf]; [discriminate | ].
  intros cur rest. revert cur.
  induction rest as [ | name rest IHr]; intros cur q o.
  - rewrite namei_nil. intros [= <- <-]. left. reflexivity.
  - rewrite namei_cons.
    destruct (String.eqb name "" || String.eqb name "."); [apply IHr | ].
    destruct (String.eqb name ".."); [apply IHr | ].
    destruct (nodes fs !! (cur ++ [name])) as [[ | c | t] | ] eqn:E.
    + apply IHr.
    + destruct rest; [ | discriminate]. intros [= <- <-]. right. exact E.
    + destruct (String.eqb t ""); [discriminate | apply IHf].
    + destruct rest; [ | discriminate]. intros [= <- <-]. right. exact E.
Qed.

(** Once a file has been put where a lookup ended, the same lookup finds it. *)
Lemma namei_after_write (fs : filesystem) (q : list string) (x : string) :
  (forall t, nodes fs !! q <> Some (Symlink t)) ->
  nodes fs !! q <> Some Dir ->
  forall fuel cur rest o,
    namei fuel fs cur rest = inr (q, o) ->
    o <> Some Dir ->
    namei fuel (mkFS (cwd fs) (<[q := File x]> (nodes fs))) cur rest
    = inr (q, Some (File x)).
Proof.
  intros Hnl Hnd.
  induction fuel as [ | fuel IHf]; [discriminate | ].
  intros cur rest. revert cur.
  induction rest as [ | name rest IHr]; intros cur o.
  - rewrite namei_nil. intros [= <- <-] H. congruence.
  - rewrite !namei_cons.
    destruct (String.eqb name "" || String.eqb name "."); [apply IHr | ].
    destruct (String.eqb name ".."); [apply IHr | ].
    simpl nodes.
    destruct (decide (q = cur ++ [name])) as [-> | Hne].
    + rewrite lookup_insert_eq.
      destruct (nodes fs !! (cur ++ [name])) as [[ | c | t] | ] eqn:E.
      * congruence.
      * destruct rest; [reflexivity | discriminate].
      * exfalso. exact (Hnl t eq_refl).
      * destruct rest; [reflexivity | discriminate].
    + rewrite lookup_insert_ne by exact Hne.
      destruct (nodes fs !! (cur ++ [name])) as [[ | c | t] | ] eqn:E.
      * apply IHr.
      * destruct rest; [ | discriminate]. intros [= <- <-]. congruence.
      * destruct (String.eqb t ""); [discriminate | apply IHf].
      * destruct rest; [ | discriminate]. intros [= <- <-]. congruence.
Qed.

Lemma ensure_data_dir_absolute (fs : filesystem) (p : PurePath) :
  root p <> EmptyString ->
  security.ensure_data_dir fs p = security.validate_path fs p.
Proof.
  intros Habs. unfold security.ensure_data_dir, joinpath.
  destruct (String.eqb_spec (root p) ""); [congruence | ].
  destruct (negb _); reflexivity.
Qed.

(** What a successful [open_write] did. *)
Lemma open_write_ok (path content : string) (w w' : world) :
  open_write path content w = (w', Ok tt) ->
  str_contains NUL path = false
  /\ exists q o,
    lookup_path (w_fs w) path = inr (q, o)
    /\ o <> Some Dir /\ nodes (w_fs w) !! q = o
    /\ (forall t, o <> Some (Symlink t))
    /\ w_fs w' = mkFS (cwd (w_fs w)) (<[q := File content]> (nodes (w_fs w))).
Proof.
  unfold open_write. intros H.
  destruct (str_contains NUL path); [discriminate | ].
  split; [reflexivity | ].
  destruct (lookup_path (w_fs w) path) as [e | [q o]] eqn:E; [discriminate | ].
  assert (Hnode : o = Some Dir \/ nodes (w_fs w) !! q = o).
  { unfold lookup_path in E. destruct (String.eqb path ""); [discriminate | ].
    eapply namei_node, E. }
  exists q, o. split; [reflexivity | ].
  destruct o as [[ | c | t] | ]; try discriminate;
    (destruct Hnode as [ | Hnode]; [discriminate | ]);
    injection H as <-; repeat split; congruence.
Qed.

(** A text written through [write_file] under an absolute path is what
    [read_file] then returns for that path (read in text mode). *)
Lemma write_file_read_file (p : PurePath) (c : string) (w w' : world) :
  root p <> EmptyString ->
  file_ops.write_file p c w = (w', Ok tt) ->
  snd (file_ops.read_file p w') = Ok (universal_newlines c).
Proof.
  intros Habs. unfold file_ops.write_file, bind at 1.
  rewrite (ensure_data_dir_absolute _ _ Habs).
  destruct (security.validate_path (w_fs w) p) as [q | e] eqn:Ev; [ | discriminate].
  unfold try_exceptM, bind, mkdir.
  destruct (mkdir_parents (w_fs w) (rev (parts (parent q)))) as [fs1 [[] | e1]] eqn:Em;
    [ | simpl; discriminate].
  destruct (open_write (str_path q) c _) as [w2 [[] | e2]] eqn:Eo;
    simpl; [ | discriminate].
  intros [= <-].
  apply mkdir_parents_same_links in Em.
  apply open_write_ok in Eo as (Hnul & q' & o & Hlook & Hnd & Hnode & Hnl & Hfs).
  simpl in Hlook, Hnode, Hfs.
  assert (Hsame : same_links (w_fs w) (w_fs w2)).
  { apply (same_links_trans _ fs1); [exact Em | ]. rewrite Hfs.
    apply same_links_insert; [ | discriminate].
    intros t. rewrite Hnode. apply Hnl. }
  unfold file_ops.read_file, bind.
  rewrite <- (validate_path_same_links _ _ p Hsame), Ev.
  unfold try_exceptM, open_read.
  rewrite Hnul.
  assert (Hfound : lookup_path (w_fs w2) (str_path q) = inr (q', Some (File c))).
  { revert Hlook. unfold lookup_path.
    destruct (String.eqb (str_path q) ""); [discriminate | ].
    rewrite Hfs. simpl cwd. intros Hlook.
    eapply namei_after_write; [ | | exact Hlook | exact Hnd].
    - intros t. rewrite Hnode. apply Hnl.
    - rewrite Hnode. exact Hnd. }
  rewrite Hfound. reflexivity.
Qed.








(** ** The json round trip *)

#[local] Arguments String.append !s1 s2 : simpl nomatch.

(** Settle a goal about one character by running through all 256. *)
Ltac each_char c :=
  destruct c as [[] [] [] [] [] [] [] []]; try discriminate; reflexivity.

Lemma append_assoc (a b c : string) : (a +:+ b) +:+ c = a +:+ (b +:+ c).
Proof. induction a as [ | x a IH]; [reflexivity | ]. simpl. f_equal. exact IH. Qed.

Lemma append_nil_r (a : string) : a +:+ EmptyString = a.
Proof. induction a as [ | x a IH]; [reflexivity | ]. simpl. f_equal. exact IH. Qed.

(** *** Numbers *)

Lemma span_digits_delimited (rest : string) :
  delimited rest = true -> span_digits rest = (EmptyString, rest).
Proof.
  destruct rest as [ | c r]; [reflexivity | ]. simpl.
  destruct (is_digit c); [discriminate | reflexivity].
Qed.

Lemma span_digits_uint (u : Decimal.uint) (rest : string) :
  delimited rest = true ->
  span_digits (NilEmpty.string_of_uint u +:+ rest)
  = (NilEmpty.string_of_uint u, rest).
Proof.
  intros Hd. induction u; simpl;
    try (rewrite IHu; reflexivity).
  apply span_digits_delimited, Hd.
Qed.

Lemma to_uint_no_leading_zero (p : positive) (d : Decimal.uint) :
  Pos.to_uint p <> Decimal.D0 d.
Proof.
  intros H.
  assert (Hn : Decimal.unorm (Pos.to_uint p) = Pos.to_uint p).
  { rewrite <- DecimalPos.Unsigned.to_of, DecimalPos.Unsigned.of_to. reflexivity. }
  rewrite H, DecimalFacts.unorm_D0 in Hn.
  destruct d as [ | d | d | d | d | d | d | d | d | d | d].
  1: { apply (DecimalPos.Unsigned.to_uint_nonzero p). exact H. }
  all: match type of Hn with
       | Decimal.unorm ?u = _ =>
           assert (Hne : u <> Decimal.Nil) by discriminate;
           pose proof (DecimalFacts.nb_digits_unorm u Hne) as Hle;
           rewrite Hn in Hle; simpl in Hle; lia
       end.
Qed.

Lemma scan_digits_uint (u : Decimal.uint) (rest : string) :
  u <> Decimal.Nil -> (forall d, u <> Decimal.D0 d) ->
  delimited rest = true ->
  scan_digits (NilEmpty.string_of_uint u +:+ rest)
  = Some (NilEmpty.string_of_uint u, rest).
Proof.
  intros Hnil Hz Hd.
  destruct u as [ | d | d | d | d | d | d | d | d | d | d];
    try congruence; try (exfalso; exact (Hz d eq_refl));
    simpl; rewrite (span_digits_uint d rest Hd); reflexivity.
Qed.

Lemma scan_int_str_int (n : Z) (rest : string) :
  delimited rest = true ->
  scan_int (str_int n +:+ rest) = Some (str_int n, rest).
Proof.
  intros Hd. unfold str_int.
  destruct n as [ | p | p]; simpl Z.to_int.
  - reflexivity.
  - pose proof (to_uint_no_leading_zero p) as Hz.
    pose proof (DecimalPos.Unsigned.to_uint_nonnil p) as Hnil.
    unfold NilZero.string_of_int, NilZero.string_of_uint.
    pose proof (scan_digits_uint (Pos.to_uint p) rest Hnil Hz Hd) as Hs.
    destruct (Pos.to_uint p) as [ | d | d | d | d | d | d | d | d | d | d];
      try congruence; try (exfalso; exact (Hz d eq_refl)); exact Hs.
  - pose proof (to_uint_no_leading_zero p) as Hz.
    pose proof (DecimalPos.Unsigned.to_uint_nonnil p) as Hnil.
    unfold NilZero.string_of_int, NilZero.string_of_uint.
    pose proof (scan_digits_uint (Pos.to_uint p) rest Hnil Hz Hd) as Hs.
    destruct (Pos.to_uint p) as [ | d | d | d | d | d | d | d | d | d | d];
      try congruence; try (exfalso; exact (Hz d eq_refl));
      simpl; simpl in Hs; rewrite Hs; reflexivity.
Qed.

Lemma int_of_string_str_int (n : Z) :
  NilZero.int_of_string (str_int n) = Some (Z.to_int n).
Proof.
  unfold str_int. apply NilZero.isi.
  - destruct n as [ | p | p]; simpl; try discriminate.
    intros [= H]. exact (DecimalPos.Unsigned.to_uint_nonnil p H).
  - destruct n as [ | p | p]; simpl; try discriminate.
    intros [= H]. exact (DecimalPos.Unsigned.to_uint_nonnil p H).
Qed.

Lemma scan_number_str_int (n : Z) (rest : string) :
  delimited rest = true ->
  scan_number (str_int n +:+ rest) = Some (JInt n, rest).
Proof.
  intros Hd. unfold scan_number.
  rewrite (scan_int_str_int n rest Hd), int_of_string_str_int, DecimalZ.of_to.
  destruct rest as [ | c r]; [reflexivity | ].
  simpl in Hd.
  destruct (Ascii.eqb_spec c ".") as [-> | H1]; [discriminate | ].
  destruct (Ascii.eqb_spec c "e") as [-> | H2]; [discriminate | ].
  destruct (Ascii.eqb_spec c "E") as [-> | H3]; [discriminate | ].
  destruct c as [[] [] [] [] [] [] [] []]; try reflexivity; congruence.
Qed.

Lemma scan_once_number (fuel : nat) (c : ascii) (s : string) :
  number_start c = true ->
  scan_once (S fuel) (String c s) = scan_number (String c s).
Proof.
  each_char c.
Qed.

Lemma str_int_head (n : Z) :
  exists c s, str_int n = String c s /\ number_start c = true.
Proof.
  unfold str_int. destruct n as [ | p | p]; simpl Z.to_int.
  - exists "0"%char, EmptyString. split; reflexivity.
  - pose proof (DecimalPos.Unsigned.to_uint_nonnil p) as Hnil.
    unfold NilZero.string_of_int, NilZero.string_of_uint.
    destruct (Pos.to_uint p); try congruence; simpl; eauto.
  - exists "-"%char. eexists. split; reflexivity.
Qed.

(** *** Strings *)

Lemma scanstring_escape_char (c : ascii) (r : string) :
  scanstring (escape_char c +:+ r)
  = match scanstring r with
    | Some (t, r') => Some (String c t, r')
    | None => None
    end.
Proof. each_char c. Qed.

Lemma scanstring_escape_chars (s rest : string) :
  scanstring (escape_chars s +:+ String DQ rest) = Some (s, rest).
Proof.
  induction s as [ | c s IH].
  - reflexivity.
  - cbn [escape_chars]. rewrite append_assoc, scanstring_escape_char, IH.
    reflexivity.
Qed.

Lemma scan_once_string (fuel : nat) (s rest : string) :
  scan_once (S fuel) (encode_basestring_ascii s +:+ rest) = Some (JString s, rest).
Proof.
  unfold encode_basestring_ascii.
  change (scan_once (S fuel) (String DQ ((escape_chars s +:+ String DQ "") +:+ rest))
          = Some (JString s, rest)).
  rewrite append_assoc.
  change (match scanstring (escape_chars s +:+ String DQ rest) with
          | Some (t, r) => Some (JString t, r)
          | None => None
          end = Some (JString s, rest)).
  rewrite scanstring_escape_chars. reflexivity.
Qed.

(** *** White space and the first character of a value *)

Lemma skip_ws_spaces (n : nat) (s : string) :
  skip_ws (spaces n +:+ s) = skip_ws s.
Proof. induction n as [ | n IH]; [reflexivity | exact IH]. Qed.

Lemma skip_ws_newline_indent (level : nat) (s : string) :
  skip_ws (newline_indent level +:+ s) = skip_ws s.
Proof. unfold newline_indent. exact (skip_ws_spaces (2 * level) s). Qed.

Lemma iterencode_head (level : nat) (v : json) :
  exists c s, iterencode level v = String c s /\ value_start c = true.
Proof.
  destruct v as [ | [] | n | s | [ | x xs] | [ | [k x] xs]];
    try (eexists; eexists; split; [reflexivity | reflexivity]).
  destruct (str_int_head n) as (c & s & E & Hc).
  exists c, s. split; [exact E | ]. unfold value_start. rewrite Hc. reflexivity.
Qed.

Lemma skip_ws_value (c : ascii) (s : string) :
  value_start c = true -> skip_ws (String c s) = String c s.
Proof.
  each_char c.
Qed.

Lemma skip_ws_iterencode (level : nat) (v : json) (rest : string) :
  skip_ws (iterencode level v +:+ rest) = iterencode level v +:+ rest.
Proof.
  destruct (iterencode_head level v) as (c & s & -> & Hc).
  exact (skip_ws_value c (s +:+ rest) Hc).
Qed.

Lemma delimited_newline_indent (level : nat) (s : string) :
  delimited (newline_indent level +:+ s) = true.
Proof. reflexivity. Qed.

(** *** Arrays and objects *)

Lemma iterencode_array (level : nat) (x : json) (xs : list json) :
  iterencode level (JArray (x :: xs))
  = "[" +:+ newline_indent (S level) +:+ iterencode (S level) x +:+
    array_tail (S level) xs +:+ newline_indent level +:+ "]".
Proof.
  cbn [iterencode]. do 4 f_equal.
  induction xs as [ | y xs IH]; [reflexivity | ].
  cbn [array_tail]. rewrite <- IH. reflexivity.
Qed.

Lemma iterencode_object (level : nat) (k : string) (x : json)
    (xs : list (string * json)) :
  iterencode level (JObject ((k, x) :: xs))
  = "{" +:+ newline_indent (S level) +:+
    encode_basestring_ascii k +:+ ": " +:+ iterencode (S level) x +:+
    object_tail (S level) xs +:+ newline_indent level +:+ "}".
Proof.
  cbn [iterencode]. do 6 f_equal.
  induction xs as [ | [k' y] xs IH]; [reflexivity | ].
  cbn [object_tail]. rewrite <- IH. reflexivity.
Qed.

Lemma json_size_array (l : list json) :
  json_size (JArray l) = S (array_size l).
Proof. reflexivity. Qed.

Lemma json_size_object (d : list (string * json)) :
  json_size (JObject d) = S (object_size d).
Proof. reflexivity. Qed.

Lemma wf_json_object (d : list (string * json)) :
  wf_json (JObject d)
  = distinct (map fst d) && forallb (fun kv => wf_json (snd kv)) d.
Proof.
  cbn [wf_json]. f_equal.
  induction d as [ | [k x] d IH]; [reflexivity | ].
  cbn [forallb snd]. rewrite <- IH. reflexivity.
Qed.

Lemma parse_array_eq (f : nat) (s : string) :
  parse_array (S f) s
  = match scan_once f s with
    | None => None
    | Some (v, r) =>
        match skip_ws r with
        | String "]" r' => Some ([v], r')
        | String "," r' =>
            match parse_array f (skip_ws r') with
            | Some (vs, r'') => Some (v :: vs, r'')
            | None => None
            end
        | _ => None
        end
    end.
Proof. reflexivity. Qed.

Lemma scan_once_array (f : nat) (s' : string) (c : ascii) (s1 : string) :
  skip_ws s' = String c s1 ->
  value_start c = true ->
  scan_once (S f) (String "[" s')
  = match parse_array f (String c s1) with
    | Some (vs, r) => Some (JArray vs, r)
    | None => None
    end.
Proof.
  intros Hs Hc.
  change (scan_once (S f) (String "[" s'))
    with (match skip_ws s' with
          | String "]" r => Some (JArray [], r)
          | s1 => match parse_array f s1 with
                  | Some (vs, r) => Some (JArray vs, r)
                  | None => None
                  end
          end).
  rewrite Hs.
  each_char c.
Qed.

Lemma scan_once_object (f : nat) (s' s1 : string) :
  skip_ws s' = String DQ s1 ->
  scan_once (S f) (String "{" s')
  = match parse_object f (String DQ s1) with
    | Some (pairs, r) => Some (JObject (dict_of_pairs pairs), r)
    | None => None
    end.
Proof.
  intros Hs.
  change (scan_once (S f) (String "{" s'))
    with (match skip_ws s' with
          | String "}" r => Some (JObject [], r)
          | s1 => match parse_object f s1 with
                  | Some (pairs, r) => Some (JObject (dict_of_pairs pairs), r)
                  | None => None
                  end
          end).
  rewrite Hs. reflexivity.
Qed.

Lemma parse_object_member (f : nat) (k s : string) :
  parse_object (S f) (encode_basestring_ascii k +:+ ": " +:+ s)
  = match scan_once f (skip_ws s) with
    | None => None
    | Some (v, r2) =>
        match skip_ws r2 with
        | String "}" r3 => Some ([(k, v)], r3)
        | String "," r3 =>
            match parse_object f (skip_ws r3) with
            | Some (kvs, r4) => Some ((k, v) :: kvs, r4)
            | None => None
            end
        | _ => None
        end
    end.
Proof.
  unfold encode_basestring_ascii.
  change (String DQ (escape_chars k +:+ String DQ "") +:+ ": " +:+ s)
    with (String DQ ((escape_chars k +:+ String DQ "") +:+ ": " +:+ s)).
  rewrite append_assoc.
  change (parse_object (S f)
            (String DQ (escape_chars k +:+ String DQ "" +:+ ": " +:+ s)))
    with (match scanstring (escape_chars k +:+ String DQ (": " +:+ s)) with
          | None => None
          | Some (k, r) =>
              match skip_ws r with
              | String ":" r1 =>
                  match scan_once f (skip_ws r1) with
                  | None => None
                  | Some (v, r2) =>
                      match skip_ws r2 with
                      | String "}" r3 => Some ([(k, v)], r3)
                      | String "," r3 =>
                          match parse_object f (skip_ws r3) with
                          | Some (kvs, r4) => Some ((k, v) :: kvs, r4)
                          | None => None
                          end
                      | _ => None
                      end
                  end
              | _ => None
              end
          end).
  rewrite scanstring_escape_chars. reflexivity.
Qed.

Lemma parse_array_items (level : nat) (xs : list json) :
  Forall reads_back xs ->
  forallb wf_json xs = true ->
  forall (x : json) (fuel : nat) (rest : string),
    reads_back x -> wf_json x = true ->
    (array_size (x :: xs) <= fuel)%nat ->
    parse_array fuel
      (iterencode (S level) x +:+ array_tail (S level) xs +:+
       newline_indent level +:+ "]" +:+ rest)
    = Some (x :: xs, rest).
Proof.
  induction xs as [ | y xs IH]; intros Hall Hwf x fuel rest Hx Hwx Hsize;
    cbn [array_size] in Hsize;
    (destruct fuel as [ | f]; [lia | ]); rewrite parse_array_eq.
  - cbn [array_tail].
    change (EmptyString +:+ newline_indent level +:+ "]" +:+ rest)
      with (newline_indent level +:+ "]" +:+ rest).
    rewrite (Hx Hwx (S level) f);
      [ | lia | apply delimited_newline_indent].
    rewrite skip_ws_newline_indent. reflexivity.
  - cbn [array_tail]. rewrite !append_assoc.
    rewrite (Hx Hwx (S level) f); [ | lia | reflexivity].
    change (skip_ws ("," +:+ ?s)) with (String "," s).
    cbv beta iota.
    rewrite skip_ws_newline_indent, skip_ws_iterencode.
    cbn [forallb] in Hwf. apply andb_prop in Hwf as [Hwy Hwf].
    inversion Hall as [ | ? ? Hy Hall']; subst.
    cbn [array_size] in Hsize.
    rewrite (IH Hall' Hwf y f rest Hy Hwy ltac:(cbn [array_size]; lia)).
    reflexivity.
Qed.

Lemma parse_object_items (level : nat) (xs : list (string * json)) :
  Forall (fun kv => reads_back (snd kv)) xs ->
  forallb (fun kv => wf_json (snd kv)) xs = true ->
  forall (k : string) (x : json) (fuel : nat) (rest : string),
    reads_back x -> wf_json x = true ->
    (object_size ((k, x) :: xs) <= fuel)%nat ->
    parse_object fuel
      (encode_basestring_ascii k +:+ ": " +:+ iterencode (S level) x +:+
       object_tail (S level) xs +:+ newline_indent level +:+ "}" +:+ rest)
    = Some ((k, x) :: xs, rest).
Proof.
  induction xs as [ | [k' y] xs IH]; intros Hall Hwf k x fuel rest Hx Hwx Hsize;
    cbn [object_size] in Hsize;
    (destruct fuel as [ | f]; [lia | ]);
    rewrite parse_object_member, skip_ws_iterencode.
  - cbn [object_tail].
    change (EmptyString +:+ newline_indent level +:+ "}" +:+ rest)
      with (newline_indent level +:+ "}" +:+ rest).
    rewrite (Hx Hwx (S level) f);
      [ | lia | apply delimited_newline_indent].
    rewrite skip_ws_newline_indent. reflexivity.
  - cbn [object_tail]. rewrite !append_assoc.
    rewrite (Hx Hwx (S level) f); [ | lia | reflexivity].
    change (skip_ws ("," +:+ ?s)) with (String "," s).
    cbv beta iota.
    rewrite skip_ws_newline_indent.
    change (skip_ws (encode_basestring_ascii k' +:+ ?s))
      with (encode_basestring_ascii k' +:+ s).
    cbn [forallb snd] in Hwf. apply andb_prop in Hwf as [Hwy Hwf].
    inversion Hall as [ | ? ? Hy Hall']; subst. cbn [snd] in Hy.
    rewrite (IH Hall' Hwf k' y f rest Hy Hwy ltac:(cbn [object_size]; lia)).
    reflexivity.
Qed.

Lemma dict_set_fresh (k : string) (v : json) (d : list (string * json)) :
  existsb (String.eqb k) (map fst d) = false ->
  dict_set k v d = d ++ [(k, v)].
Proof.
  induction d as [ | [k' v'] d IH]; [reflexivity | ].
  cbn [map fst existsb dict_set]. intros H.
  apply orb_false_elim in H as [Hk H]. rewrite Hk, (IH H). reflexivity.
Qed.

Lemma existsb_app_false (k : string) (a b : list string) :
  existsb (String.eqb k) (a ++ b) = false ->
  existsb (String.eqb k) a = false /\ existsb (String.eqb k) b = false.
Proof. rewrite existsb_app. apply orb_false_elim. Qed.

Lemma distinct_app_cons (a : list string) (k : string) (b : list string) :
  distinct (a ++ k :: b) = true ->
  existsb (String.eqb k) a = false /\ distinct ((a ++ [k]) ++ b) = true.
Proof.
  induction a as [ | x a IH]; cbn [app distinct existsb].
  - intros H. split; [reflexivity | exact H].
  - intros H. apply andb_prop in H as [Hx Hd].
    destruct (IH Hd) as [Hk Hd'].
    apply negb_true_iff in Hx. rewrite existsb_app in Hx.
    apply orb_false_elim in Hx as [Hxa Hxb]. cbn [existsb] in Hxb.
    apply orb_false_elim in Hxb as [Hxk Hxb].
    split.
    + rewrite String.eqb_sym, Hxk. exact Hk.
    + rewrite Hd', andb_true_r. apply negb_true_iff.
      rewrite !existsb_app. cbn [existsb]. rewrite Hxa, Hxk, Hxb. reflexivity.
Qed.

(** A dict built from items without a repeated key has those items. *)
Lemma dict_of_pairs_distinct (l acc : list (string * json)) :
  distinct (map fst (acc ++ l)) = true ->
  fold_left (fun d kv => dict_set (fst kv) (snd kv) d) l acc = acc ++ l.
Proof.
  revert acc. induction l as [ | [k v] l IH]; intros acc H.
  - cbn [fold_left]. rewrite app_nil_r. reflexivity.
  - cbn [fold_left fst snd].
    rewrite map_app in H. cbn [map fst] in H.
    apply distinct_app_cons in H as [Hk Hd].
    rewrite (dict_set_fresh k v acc Hk).
    rewrite IH.
    + rewrite <- app_assoc. reflexivity.
    + rewrite !map_app. cbn [map fst]. exact Hd.
Qed.

Lemma scan_once_array_value (f level level' : nat) (x : json) (r : string) :
  scan_once (S f) (String "[" (newline_indent level' +:+ iterencode level x +:+ r))
  = match parse_array f (iterencode level x +:+ r) with
    | Some (vs, r') => Some (JArray vs, r')
    | None => None
    end.
Proof.
  destruct (iterencode_head level x) as (c & s1 & E & Hc).
  rewrite (scan_once_array f _ c (s1 +:+ r)).
  - rewrite E. reflexivity.
  - rewrite skip_ws_newline_indent, skip_ws_iterencode, E. reflexivity.
  - exact Hc.
Qed.

Lemma scan_once_object_key (f level' : nat) (k r : string) :
  scan_once (S f) (String "{" (newline_indent level' +:+ encode_basestring_ascii k +:+ r))
  = match parse_object f (encode_basestring_ascii k +:+ r) with
    | Some (pairs, r') => Some (JObject (dict_of_pairs pairs), r')
    | None => None
    end.
Proof.
  apply scan_once_object. rewrite skip_ws_newline_indent. reflexivity.
Qed.

(** What [iterencode] prints, [scan_once] reads back. *)
Lemma scan_once_iterencode (v : json) : reads_back v.
Proof.
  induction v as [ | b | n | s | l IH | d IH] using json_ind;
    intros Hwf level fuel rest Hsize Hd;
    (destruct fuel as [ | f]; [cbn in Hsize; lia | ]).
  - reflexivity.
  - destruct b; reflexivity.
  - cbn [iterencode].
    destruct (str_int_head n) as (c & s & E & Hc).
    transitivity (scan_number (str_int n +:+ rest)).
    + rewrite E. apply scan_once_number, Hc.
    + apply scan_number_str_int, Hd.
  - apply scan_once_string.
  - destruct l as [ | x xs]; [reflexivity | ].
    rewrite iterencode_array, !append_assoc.
    change ("[" +:+ ?s) with (String "[" s).
    inversion IH as [ | ? ? Hx Hxs]; subst.
    cbn [wf_json forallb] in Hwf. apply andb_prop in Hwf as [Hwx Hwxs].
    rewrite json_size_array in Hsize.
    rewrite scan_once_array_value.
    rewrite (parse_array_items level xs Hxs Hwxs x f rest Hx Hwx ltac:(lia)).
    reflexivity.
  - destruct d as [ | [k x] xs]; [reflexivity | ].
    rewrite iterencode_object, !append_assoc.
    change ("{" +:+ ?s) with (String "{" s).
    inversion IH as [ | ? ? Hx Hxs]; subst. cbn [snd] in Hx.
    rewrite wf_json_object in Hwf. apply andb_prop in Hwf as [Hdist Hwf].
    cbn [forallb snd] in Hwf. apply andb_prop in Hwf as [Hwx Hwxs].
    rewrite json_size_object in Hsize.
    rewrite scan_once_object_key.
    rewrite (parse_object_items level xs Hxs Hwxs k x f rest Hx Hwx ltac:(lia)).
    unfold dict_of_pairs.
    rewrite (dict_of_pairs_distinct ((k, x) :: xs) [] Hdist). reflexivity.
Qed.

(** *** Enough fuel *)

Lemma length_append (a b : string) :
  String.length (a +:+ b) = (String.length a + String.length b)%nat.
Proof. induction a as [ | c a IH]; [reflexivity | ]. simpl. rewrite IH. reflexivity. Qed.

Lemma length_newline_indent (level : nat) :
  (1 <= String.length (newline_indent level))%nat.
Proof. unfold newline_indent. simpl. lia. Qed.

Lemma json_size_le_length (v : json) :
  forall level, (json_size v <= String.length (iterencode level v))%nat.
Proof.
  induction v as [ | b | n | s | l IH | d IH] using json_ind; intros level.
  - simpl. lia.
  - destruct b; simpl; lia.
  - cbn [iterencode json_size].
    destruct (str_int_head n) as (c & s & -> & _). simpl. lia.
  - simpl. lia.
  - destruct l as [ | x xs]; [simpl; lia | ].
    rewrite iterencode_array, json_size_array, !length_append.
    inversion IH as [ | ? ? Hx Hxs]; subst.
    pose proof (Hx (S level)) as Hx'.
    pose proof (length_newline_indent (S level)) as Hn.
    assert (Ht : (array_size xs <= String.length (array_tail (S level) xs))%nat).
    { clear - Hxs. induction xs as [ | y xs IHxs]; [simpl; lia | ].
      inversion Hxs as [ | ? ? Hy Hxs']; subst.
      cbn [array_size array_tail]. rewrite !length_append.
      pose proof (Hy (S level)). pose proof (IHxs Hxs').
      pose proof (length_newline_indent (S level)).
      change (String.length ",") with 1%nat. lia. }
    cbn [array_size]. change (String.length "[") with 1%nat. lia.
  - destruct d as [ | [k x] xs]; [simpl; lia | ].
    rewrite iterencode_object, json_size_object, !length_append.
    inversion IH as [ | ? ? Hx Hxs]; subst. cbn [snd] in Hx.
    pose proof (Hx (S level)) as Hx'.
    pose proof (length_newline_indent (S level)) as Hn.
    assert (Ht : (object_size xs <= String.length (object_tail (S level) xs))%nat).
    { clear - Hxs. induction xs as [ | [k' y] xs IHxs]; [simpl; lia | ].
      inversion Hxs as [ | ? ? Hy Hxs']; subst. cbn [snd] in Hy.
      cbn [object_size object_tail]. rewrite !length_append.
      pose proof (Hy (S level)). pose proof (IHxs Hxs').
      pose proof (length_newline_indent (S level)).
      change (String.length ",") with 1%nat. lia. }
    cbn [object_size]. change (String.length "{") with 1%nat. lia.
Qed.

(** [json.loads(json.dumps(v, indent=2)) == v] *)
Lemma loads_dumps (v : json) : wf_json v = true -> loads (dumps v) = Ok v.
Proof.
  intros Hwf. unfold loads, dumps.
  pose proof (skip_ws_iterencode 0%nat v EmptyString) as Hs.
  rewrite append_nil_r in Hs. rewrite Hs.
  rewrite <- (append_nil_r (iterencode 0 v)) at 2.
  rewrite (scan_once_iterencode v Hwf 0%nat).
  - reflexivity.
  - pose proof (json_size_le_length v 0%nat). lia.
  - reflexivity.
Qed.

(** *** No carriage return in the printed form *)

Lemma has_char_append (c : ascii) (a b : string) :
  has_char c (a +:+ b) = has_char c a || has_char c b.
Proof.
  induction a as [ | x a IH]; [reflexivity | ].
  simpl. rewrite IH, orb_assoc. reflexivity.
Qed.

Lemma universal_newlines_no_cr (s : string) :
  has_char CR s = false -> universal_newlines s = s.
Proof.
  induction s as [ | c s IH]; [reflexivity | ].
  cbn [has_char universal_newlines]. intros H.
  apply orb_false_elim in H as [Hc Hs]. rewrite Hc, (IH Hs). reflexivity.
Qed.

Lemma no_cr_escape_char (c : ascii) : has_char CR (escape_char c) = false.
Proof. each_char c. Qed.

Lemma no_cr_escape_chars (s : string) : has_char CR (escape_chars s) = false.
Proof.
  induction s as [ | c s IH]; [reflexivity | ].
  cbn [escape_chars]. rewrite has_char_append, no_cr_escape_char, IH. reflexivity.
Qed.

Lemma no_cr_encode_basestring (s : string) :
  has_char CR (encode_basestring_ascii s) = false.
Proof.
  unfold encode_basestring_ascii. cbn [has_char].
  rewrite has_char_append, no_cr_escape_chars. reflexivity.
Qed.

Lemma no_cr_uint (u : Decimal.uint) :
  has_char CR (NilEmpty.string_of_uint u) = false.
Proof. induction u; simpl; try exact IHu; reflexivity. Qed.

Lemma no_cr_nilzero_uint (u : Decimal.uint) :
  has_char CR (NilZero.string_of_uint u) = false.
Proof.
  unfold NilZero.string_of_uint.
  destruct u; try reflexivity;
    match goal with
    | |- has_char CR (NilEmpty.string_of_uint ?x) = false => apply (no_cr_uint x)
    end.
Qed.

Lemma no_cr_str_int (n : Z) : has_char CR (str_int n) = false.
Proof.
  unfold str_int, NilZero.string_of_int.
  destruct (Z.to_int n) as [u | u].
  - apply no_cr_nilzero_uint.
  - change (has_char CR (NilZero.string_of_uint u) = false).
    apply no_cr_nilzero_uint.
Qed.

Lemma no_cr_spaces (n : nat) : has_char CR (spaces n) = false.
Proof. induction n as [ | n IH]; [reflexivity | exact IH]. Qed.

Lemma no_cr_newline_indent (level : nat) :
  has_char CR (newline_indent level) = false.
Proof. unfold newline_indent. cbn [has_char]. apply no_cr_spaces. Qed.

Lemma no_cr_iterencode (v : json) :
  forall level, has_char CR (iterencode level v) = false.
Proof.
  induction v as [ | b | n | s | l IH | d IH] using json_ind; intros level.
  - reflexivity.
  - destruct b; reflexivity.
  - apply no_cr_str_int.
  - apply no_cr_encode_basestring.
  - destruct l as [ | x xs]; [reflexivity | ].
    rewrite iterencode_array, !has_char_append.
    inversion IH as [ | ? ? Hx Hxs]; subst.
    assert (Ht : has_char CR (array_tail (S level) xs) = false).
    { clear - Hxs. induction xs as [ | y xs IHxs]; [reflexivity | ].
      inversion Hxs as [ | ? ? Hy Hxs']; subst.
      cbn [array_tail]. rewrite !has_char_append.
      rewrite no_cr_newline_indent, (Hy (S level)), (IHxs Hxs'). reflexivity. }
    rewrite !no_cr_newline_indent, (Hx (S level)), Ht. reflexivity.
  - destruct d as [ | [k x] xs]; [reflexivity | ].
    rewrite iterencode_object, !has_char_append.
    inversion IH as [ | ? ? Hx Hxs]; subst. cbn [snd] in Hx.
    assert (Ht : has_char CR (object_tail (S level) xs) = false).
    { clear - Hxs. induction xs as [ | [k' y] xs IHxs]; [reflexivity | ].
      inversion Hxs as [ | ? ? Hy Hxs']; subst. cbn [snd] in Hy.
      cbn [object_tail]. rewrite !has_char_append.
      rewrite no_cr_newline_indent, no_cr_encode_basestring,
        (Hy (S level)), (IHxs Hxs').
      reflexivity. }
    rewrite !no_cr_newline_indent, no_cr_encode_basestring, (Hx (S level)), Ht.
    reflexivity.
Qed.

(** For an absolute path the two accessors meet: a record of this model
    that [write_json] has written is the record that [read_json] then
    returns. *)
Lemma write_json_read_json_absolute :
  forall (p : PurePath) (r : json) (w w' : world),
    root p <> EmptyString ->
    wf_json r = true ->
    file_ops.write_json p r w = (w', Ok tt) ->
    snd (file_ops.read_json p w') = Ok r.
Proof.
  intros p r w w' Habs Hwf Hw.
  unfold file_ops.write_json, try_exceptM in Hw.
  destruct (file_ops.write_file p (dumps r) w) as [w1 [[] | e]] eqn:E;
    simpl in Hw; [ | discriminate].
  injection Hw as <-.
  pose proof (write_file_read_file p (dumps r) w w1 Habs E) as Hr.
  unfold dumps in Hr at 1.
  rewrite (universal_newlines_no_cr _ (no_cr_iterencode r 0%nat)) in Hr.
  fold (dumps r) in Hr.
  unfold file_ops.read_json, bind, lift.
  destruct (file_ops.read_file p w1) as [w2 res]. simpl in Hr. subst res.
  rewrite (loads_dumps r Hwf). reflexivity.
Qed.

(** C5: the round trip fails for a path given relative to the sandbox.
    [write_json] goes through [ensure_data_dir], which places "contacts.json"
    under the data directory, and succeeds; [read_json] goes through
    [validate_path] alone, which resolves the same path against the working
    directory, and refuses it.  The record is in the file: read under its
    absolute path it comes back as it was written. *)
Theorem relative_path_written_not_read :
  snd (file_ops.write_json (Path "contacts.json") contacts_record w0) = Ok tt
  /\ snd (file_ops.read_json (Path "contacts.json")
            (fst (file_ops.write_json (Path "contacts.json") contacts_record w0)))
     = Err (HTTPException 400
              "Invalid path: 400: Access denied: Path outside allowed directories")
  /\ snd (file_ops.read_json (Path "/data/contacts.json")
            (fst (file_ops.write_json (Path "contacts.json") contacts_record w0)))
     = Ok contacts_record.
Proof. vm_compute. repeat split; reflexivity. Qed.


(** * Further properties *)

(** ** The resolver *)

Lemma proper_prefixes_shorter (l ps : list string) :
  l ∈ proper_prefixes ps -> (length l < length ps)%nat.
Proof.
  revert l. induction ps as [ | x ps IH]; intros l Hl; simpl in Hl.
  - inversion Hl.
  - apply elem_of_cons in Hl as [-> | Hl]; [simpl; lia | ].
    apply list_elem_of_fmap in Hl as (l' & -> & Hl').
    simpl. apply IH in Hl'. lia.
Qed.

Lemma parents_strictly_under (d q : PurePath) :
  d ∈ parents q -> strictly_under d q = true.
Proof.
  intros Hd. unfold strictly_under.
  rewrite (parents_lies_under d q Hd). simpl.
  apply negb_true_iff, bool_decide_eq_false. intros ->.
  unfold parents in Hd.
  apply list_elem_of_fmap in Hd as (l & E & Hl).
  apply list_elem_of_In, in_rev, list_elem_of_In in Hl.
  apply proper_prefixes_shorter in Hl.
  destruct d as [r ps]. simpl in *. injection E as ->. lia.
Qed.

Lemma validate_path_cases :
  forall (fs : filesystem) (p : PurePath),
    match security.validate_path fs p with
    | Ok q =>
        resolve fs p = Ok q
        /\ strictly_under DATA_DIR q = true
        /\ str_contains ".." (str_path q) = false
    | Err e => exists detail, e = HTTPException 400 detail
    end.
Proof.
  intros fs p. destruct (security.validate_path fs p) as [q | e] eqn:E.
  - apply validate_path_ok in E as (Hres & (d & Hd & Hpar) & Hdd).
    split; [exact Hres | split; [ | exact Hdd]].
    apply list_elem_of_In in Hd. simpl in Hd. destruct Hd as [<- | []].
    apply parents_strictly_under, Hpar.
  - apply validate_path_error in E. exact E.
Qed.

(** X1: [validate_path] has two outcomes only: the resolved path, which
    then lies strictly below the data directory and has no ".." in its
    text, or an HTTP 400. *)
Theorem validate_path_outcomes :
  forall (fs : filesystem) (p : PurePath),
    match security.validate_path fs p with
    | Ok q =>
        resolve fs p = Ok q
        /\ strictly_under DATA_DIR q = true
        /\ str_contains ".." (str_path q) = false
    | Err e => exists detail, e = HTTPException 400 detail
    end.
Proof. exact validate_path_cases. Qed.

(** X2: a path that resolves to the data directory itself is refused: the
    directory must be a proper ancestor. *)
Theorem validate_path_refuses_the_root :
  forall (fs : filesystem) (p d : PurePath),
    resolve fs p = Ok d ->
    d ∈ ALLOWED_DIRS ->
    security.validate_path fs p
    = Err (HTTPException 400
             "Invalid path: 400: Access denied: Path outside allowed directories").
Proof.
  intros fs p d Hres Hd.
  apply list_elem_of_In in Hd. simpl in Hd. destruct Hd as [<- | []].
  unfold security.validate_path. rewrite Hres. vm_compute. reflexivity.
Qed.

Lemma validate_path_refuses_the_root_witness :
  security.validate_path fs0 (Path "/data/sub/..")
  = Err (HTTPException 400
           "Invalid path: 400: Access denied: Path outside allowed directories").
Proof.
  apply (validate_path_refuses_the_root fs0 (Path "/data/sub/..") DATA_DIR).
  - vm_compute. reflexivity.
  - vm_compute. set_solver.
Defined.

(** *** Components *)

Lemma prefix_cons (a b : ascii) (s1 s2 : string) :
  String.prefix (String a s1) (String b s2) = Ascii.eqb a b && String.prefix s1 s2.
Proof.
  simpl. destruct (ascii_dec a b) as [-> | n].
  - rewrite Ascii.eqb_refl. reflexivity.
  - apply Ascii.eqb_neq in n. rewrite n. reflexivity.
Qed.



Lemma split_on_not_nil (sep : ascii) (s : string) : split_on sep s <> [].
Proof.
  destruct s as [ | c s]; simpl; [discriminate | ].
  destruct (Ascii.eqb c sep); [discriminate | ].
  destruct (split_on sep s); discriminate.
Qed.

(** No piece of a split holds the separator. *)
Lemma split_on_no_sep (sep : ascii) (s : string) :
  Forall (fun c => has_char sep c = false) (split_on sep s).
Proof.
  induction s as [ | c s IH]; simpl.
  - repeat constructor.
  - destruct (Ascii.eqb c sep) eqn:E.
    + constructor; [reflexivity | exact IH].
    + destruct (split_on sep s) as [ | w ws].
      * repeat constructor. simpl. rewrite E. reflexivity.
      * inversion IH as [ | ? ? Hw Hws]; subst.
        constructor; [ | exact Hws]. simpl. rewrite E. exact Hw.
Qed.






(** The parts of [Path s] have no slash and are neither empty nor ".". *)
Lemma Path_parts (s : string) :
  Forall (fun c => is_part c = true /\ has_char "/" c = false) (parts (Path s)).
Proof.
  unfold Path. cbn [parts]. apply Forall_forall. intros c Hc.
  apply list_elem_of_In, filter_In in Hc as [Hin Hp]. split; [exact Hp | ].
  pose proof (split_on_no_sep "/" s) as Hall.
  rewrite Forall_forall in Hall. apply Hall, list_elem_of_In, Hin.
Qed.

Lemma Path_root (s : string) :
  root (Path s) = EmptyString \/ root (Path s) = "/" \/ root (Path s) = "//".
Proof.
  unfold Path. cbn [root].
  destruct (count_leading_slashes s) as [ | [ | [ | n]]]; tauto.
Qed.

(** The text of a relative path does not start with a slash. *)
Lemma relative_path_text (s : string) (t : string) :
  root (Path s) = EmptyString ->
  startswith (str_path (Path s)) (String "/" t) = false.
Proof.
  intros Hrel. pose proof (Path_parts s) as Hparts.
  unfold str_path. rewrite Hrel.
  destruct (parts (Path s)) as [ | c cs]; [reflexivity | ].
  inversion Hparts as [ | ? ? [Hp Hs] _]; subst.
  cbn [String.append].
  assert (Hhead : exists a r, join "/" (c :: cs) = String a r
                              /\ Ascii.eqb a "/" = false).
  { destruct c as [ | a c']; [discriminate | ].
    cbn [has_char] in Hs. apply orb_false_elim in Hs as [Ha _].
    destruct cs; simpl; eauto. }
  destruct Hhead as (a & r & -> & Ha).
  unfold startswith. rewrite prefix_cons, Ascii.eqb_sym, Ha. reflexivity.
Qed.

(** X3: what [ensure_data_dir] returns lies strictly below the data
    directory; an absolute path is validated as it is, a relative one is
    first placed under the data directory. *)
Theorem ensure_data_dir_outcomes :
  forall (fs : filesystem) (s : string) (q : PurePath),
    security.ensure_data_dir fs (Path s) = Ok q ->
    strictly_under DATA_DIR q = true
    /\ (root (Path s) <> EmptyString -> resolve fs (Path s) = Ok q)
    /\ (root (Path s) = EmptyString ->
        resolve fs (mkPath "/" ("data" :: parts (Path s))) = Ok q).
Proof.
  intros fs s q H. split; [ | split].
  - unfold security.ensure_data_dir in H.
    pose proof (validate_path_cases fs
                  (if negb (startswith (str_path (Path s)) (str_path DATA_DIR))
                   then joinpath DATA_DIR (Path s) else Path s)) as Ho.
    rewrite H in Ho. tauto.
  - intros Habs. rewrite (ensure_data_dir_absolute fs _ Habs) in H.
    apply validate_path_ok in H. tauto.
  - intros Hrel. unfold security.ensure_data_dir in H.
    change (str_path DATA_DIR) with "/data" in H.
    rewrite (relative_path_text s "data" Hrel) in H.
    cbn [negb] in H. unfold joinpath in H. rewrite Hrel in H.
    apply validate_path_ok in H. tauto.
Qed.

Lemma ensure_data_dir_outcomes_witness :
  strictly_under DATA_DIR (Path "/data/notes/a.txt") = true
  /\ (root (Path "notes/./a.txt") <> EmptyString ->
      resolve fs0 (Path "notes/./a.txt") = Ok (Path "/data/notes/a.txt"))
  /\ (root (Path "notes/./a.txt") = EmptyString ->
      resolve fs0 (mkPath "/" ("data" :: parts (Path "notes/./a.txt")))
      = Ok (Path "/data/notes/a.txt")).
Proof.
  apply (ensure_data_dir_outcomes fs0 "notes/./a.txt" (Path "/data/notes/a.txt")).
  vm_compute. reflexivity.
Defined.

(** *** What a resolved path looks like *)



















(** ** What the accessors open *)









(** ** What [write_file] changes *)



























(** ** How the accessors fail *)

Lemma read_file_err (p : PurePath) (w w' : world) (e : exn) :
  file_ops.read_file p w = (w', Err e) ->
  w' = w /\ @fails_only_with string [400; 404; 500] (Err e).
Proof.
  unfold file_ops.read_file, bind.
  destruct (security.validate_path (w_fs w) p) as [q | e0] eqn:Ev.
  - unfold try_exceptM, open_read.
    destruct (str_contains NUL (str_path q)).
    { intros [= <- <-]. split; [reflexivity | ].
      simpl. eexists _, _. split; [reflexivity | ]. simpl. tauto. }
    destruct (lookup_path (w_fs w) (str_path q)) as [[] | [x [[ | c0 | t] | ]]];
      cbn; try discriminate;
      intros [= <- <-]; (split; [reflexivity | ]);
      eexists _, _; (split; [reflexivity | ]); simpl; tauto.
  - intros [= <- <-]. split; [reflexivity | ].
    apply validate_path_error in Ev as [detail ->].
    simpl. eexists _, _. split; [reflexivity | ]. simpl. tauto.
Qed.

Lemma fails_only_with_more {A} (l l' : list Z) (r : result A) :
  (forall x, In x l -> In x l') -> fails_only_with l r -> fails_only_with l' r.
Proof.
  intros Hsub. destruct r as [a | e]; [tauto | ].
  intros (st & d & -> & Hin). exists st, d. split; [reflexivity | auto].
Qed.

(** X11: the accessors with a catch-all except clause fail with HTTP errors
    only: [read_file] with 400, 404 or 500, [write_file] with 400 or 500,
    and [write_json] with 500 always, a refused path included.  ([read_json]
    is not among them: it converts JSONDecodeError alone.) *)
Theorem accessors_fail_with_http_errors :
  forall (p : PurePath) (c : string) (v : json) (w : world),
    fails_only_with [400; 404; 500] (snd (file_ops.read_file p w))
    /\ fails_only_with [400; 500] (snd (file_ops.write_file p c w))
    /\ fails_only_with [500] (snd (file_ops.write_json p v w)).
Proof.
  intros p c v w.
  assert (Hread : fails_only_with [400; 404; 500] (snd (file_ops.read_file p w))).
  { destruct (file_ops.read_file p w) as [w' [t | e]] eqn:E; [exact I | ].
    apply read_file_err in E. tauto. }
  assert (Hwrite : forall c', fails_only_with [400; 500]
                                (snd (file_ops.write_file p c' w))).
  { intros c'. unfold file_ops.write_file, bind at 1.
    destruct (security.ensure_data_dir (w_fs w) p) as [q | e] eqn:Ev.
    - unfold try_exceptM.
      destruct ((mkdir (parent q);;; open_write (str_path q) c') w) as [w' [[] | e]];
        [exact I | ].
      simpl. eexists _, _. split; [reflexivity | ]. simpl. tauto.
    - unfold security.ensure_data_dir in Ev.
      apply validate_path_error in Ev as [detail ->].
      simpl. eexists _, _. split; [reflexivity | ]. simpl. tauto. }
  split; [exact Hread | split; [apply Hwrite | ]].
  unfold file_ops.write_json, try_exceptM.
  destruct (file_ops.write_file p (dumps v) w) as [w' [[] | e]]; [exact I | ].
  simpl. eexists _, _. split; [reflexivity | ]. simpl. tauto.
Qed.

Lemma read_file_frame (p : PurePath) (w : world) :
  w_fs (fst (file_ops.read_file p w)) = w_fs w
  /\ w_llm (fst (file_ops.read_file p w)) = w_llm w
  /\ w_token (fst (file_ops.read_file p w)) = w_token w.
Proof.
  unfold file_ops.read_file, bind.
  destruct (security.validate_path (w_fs w) p) as [q | e]; [ | auto].
  unfold try_exceptM, open_read.
  destruct (str_contains NUL (str_path q)); [auto | ].
  destruct (lookup_path (w_fs w) (str_path q)) as [e | [x [[ | c | t] | ]]];
    auto.
Qed.

(** X12: the reading accessors write nothing: whatever the outcome of
    [read_file] or [read_json], the file system is as it was, and so are the
    answers of the model still to come and the token. *)
Theorem reading_changes_no_file :
  forall (p : PurePath) (w : world),
    (w_fs (fst (file_ops.read_file p w)) = w_fs w
     /\ w_llm (fst (file_ops.read_file p w)) = w_llm w
     /\ w_token (fst (file_ops.read_file p w)) = w_token w)
    /\ (w_fs (fst (file_ops.read_json p w)) = w_fs w
        /\ w_llm (fst (file_ops.read_json p w)) = w_llm w
        /\ w_token (fst (file_ops.read_json p w)) = w_token w).
Proof.
  intros p w. pose proof (read_file_frame p w) as H. split; [exact H | ].
  unfold file_ops.read_json, bind, lift.
  destruct (file_ops.read_file p w) as [w' [t | e]]; exact H.
Qed.






(** ** The two call_llm *)



(** ** The endpoints *)

Lemma reraise_http (e : exn) :
  exists status detail, main.reraise e = HTTPException status detail.
Proof. destruct e; simpl; eauto. Qed.

(** X15: POST /run without AIPROXY_TOKEN answers HTTP 500 with the message
    of the constructor, before the description is looked at: no request is
    sent and the world is as it was. *)
Theorem run_task_without_token :
  forall external (task : string) (w : world),
    w_token w = None \/ w_token w = Some EmptyString ->
    main.run_task external task w
    = (w, Err (HTTPException 500 "AIPROXY_TOKEN environment variable not set")).
Proof.
  intros external task w H.
  unfold main.run_task, try_exceptM, bind, main.TaskHandler.
  destruct H as [-> | ->]; reflexivity.
Qed.

Lemma run_task_without_token_witness :
  main.run_task ext0 weekday_task (mkWorld fs_dates [] [] None)
  = (mkWorld fs_dates [] [] None,
     Err (HTTPException 500 "AIPROXY_TOKEN environment variable not set")).
Proof.
  apply (run_task_without_token ext0 weekday_task (mkWorld fs_dates [] [] None)).
  left. reflexivity.
Defined.

Lemma main_read_file_cases (path : string) (w : world) :
  fails_only_with [400; 404; 500] (snd (main.read_file path w))
  /\ w_fs (fst (main.read_file path w)) = w_fs w.
Proof.
  unfold main.read_file, try_exceptM.
  destruct (negb (startswith path "/data/")).
  { simpl. split; [ | reflexivity]. eexists _, _. split; [reflexivity | ]. simpl. tauto. }
  destruct (negb (exists_ (w_fs w) (Path path))).
  { simpl. split; [ | reflexivity]. eexists _, _. split; [reflexivity | ]. simpl. tauto. }
  unfold open_read.
  destruct (str_contains NUL (str_path (Path path))).
  { simpl. split; [ | reflexivity]. eexists _, _. split; [reflexivity | ]. simpl. tauto. }
  destruct (lookup_path (w_fs w) (str_path (Path path)))
    as [e | [x [[ | c0 | t] | ]]].
  - destruct e; simpl; (split; [ | reflexivity]);
      eexists _, _; (split; [reflexivity | ]); simpl; tauto.
  - simpl. split; [ | reflexivity]. eexists _, _. split; [reflexivity | ]. simpl. tauto.
  - simpl. split; [exact I | reflexivity].
  - simpl. split; [ | reflexivity]. eexists _, _. split; [reflexivity | ]. simpl. tauto.
  - simpl. split; [ | reflexivity]. eexists _, _. split; [reflexivity | ]. simpl. tauto.
Qed.

(** X16: whatever the methods do, the two endpoints raise nothing but
    HTTPException; GET /read answers 400, 404 or 500 only and leaves the
    file system as it was. *)
Theorem endpoints_raise_http_only :
  forall external (task path : string) (w : world),
    (match snd (main.run_task external task w) with
     | Ok _ => True
     | Err e => exists status detail, e = HTTPException status detail
     end)
    /\ fails_only_with [400; 404; 500] (snd (main.read_file path w))
    /\ w_fs (fst (main.read_file path w)) = w_fs w.
Proof.
  intros external task path w. split; [ | apply main_read_file_cases].
  unfold main.run_task, try_exceptM.
  match goal with |- context [let (_, _) := ?m in _] => destruct m as [w' [v | e]] end;
    [exact I | ].
  simpl. apply reraise_http.
Qed.

(** ** Counting the Wednesdays *)

Lemma count_wednesdays_cases (dates : list string) :
  match main.count_wednesdays dates with
  | Ok n =>
      Forall (fun d => exists ymd, strptime d = Ok ymd) dates
      /\ 0 <= n <= Z.of_nat (length dates)
  | Err e =>
      exists pre d suf,
        dates = pre ++ d :: suf
        /\ Forall (fun d' => exists ymd, strptime d' = Ok ymd) pre
        /\ strptime d = Err e
  end.
Proof.
  induction dates as [ | date dates IH]; simpl.
  - split; [constructor | lia].
  - destruct (strptime date) as [[[y m] d] | e] eqn:E.
    + destruct (main.count_wednesdays dates) as [n | e].
      * destruct IH as [IH1 IH2]. split; [constructor; eauto | ].
        destruct (weekday y m d =? 2); lia.
      * destruct IH as (pre & d' & suf & -> & Hpre & Hd).
        exists (date :: pre), d', suf. repeat split; [ | exact Hd].
        constructor; eauto.
    + exists [], date, dates. repeat split; [constructor | exact E].
Qed.

(** X17: the count of handle_count_weekdays is all or nothing.  It is a
    number between 0 and the number of lines only if every line is a date of
    the form %Y-%m-%d; otherwise the error raised is that of the first line
    that is not. *)
Theorem count_wednesdays_outcomes :
  forall dates : list string,
    match main.count_wednesdays dates with
    | Ok n =>
        Forall (fun d => exists ymd, strptime d = Ok ymd) dates
        /\ 0 <= n <= Z.of_nat (length dates)
    | Err e =>
        exists pre d suf,
          dates = pre ++ d :: suf
          /\ Forall (fun d' => exists ymd, strptime d' = Ok ymd) pre
          /\ strptime d = Err e
    end.
Proof. exact count_wednesdays_cases. Qed.




(** ** The version of prettier *)

Lemma search_prettier_eq (task : string) :
  search_prettier task
  = match (if startswith task "prettier@" then
             match span_version (drop_chars 9 task) with
             | EmptyString => None
             | v => Some v
             end
           else None) with
    | Some v => Some v
    | None =>
        match task with
        | EmptyString => None
        | String _ task' => search_prettier task'
        end
    end.
Proof. destruct task; reflexivity. Qed.

Lemma span_version_chars (s : string) :
  all_chars is_version_char (span_version s) = true.
Proof.
  induction s as [ | c s IH]; [reflexivity | ].
  simpl. destruct (is_version_char c) eqn:E; [ | reflexivity].
  simpl. rewrite E. exact IH.
Qed.

Lemma span_version_prefix (s : string) : String.prefix (span_version s) s = true.
Proof.
  induction s as [ | c s IH]; [reflexivity | ].
  cbn [span_version]. destruct (is_version_char c); [ | reflexivity].
  rewrite prefix_cons, Ascii.eqb_refl. exact IH.
Qed.

Lemma prefix_drop (p s : string) :
  String.prefix p s = true -> s = p +:+ drop_chars (String.length p) s.
Proof.
  revert s. induction p as [ | a p IH]; intros s H; [reflexivity | ].
  destruct s as [ | b s]; [discriminate | ].
  rewrite prefix_cons in H. apply andb_true_iff in H as [Hab Hp].
  apply Ascii.eqb_eq in Hab as ->.
  cbn [String.length drop_chars String.append]. f_equal. apply IH, Hp.
Qed.

Lemma prefix_append (p x r : string) :
  String.prefix (p +:+ x) (p +:+ r) = String.prefix x r.
Proof.
  induction p as [ | a p IH]; [reflexivity | ].
  cbn [String.append]. rewrite prefix_cons, Ascii.eqb_refl. exact IH.
Qed.

Lemma search_prettier_some (task v : string) :
  search_prettier task = Some v ->
  v <> EmptyString
  /\ all_chars is_version_char v = true
  /\ str_contains ("prettier@" +:+ v) task = true.
Proof.
  induction task as [ | c task IH]; rewrite search_prettier_eq.
  - discriminate.
  - destruct (startswith (String c task) "prettier@") eqn:Hs.
    + pose proof (span_version_chars (drop_chars 9 (String c task))) as Hc.
      pose proof (span_version_prefix (drop_chars 9 (String c task))) as Hp.
      destruct (span_version (drop_chars 9 (String c task))) as [ | a v'] eqn:Ev.
      * intros H. apply IH in H as (H1 & H2 & H3).
        repeat split; [exact H1 | exact H2 | ].
        cbn [str_contains]. rewrite H3. apply orb_true_r.
      * intros [= <-]. repeat split; [discriminate | exact Hc | ].
        cbn [str_contains]. apply orb_true_iff. left.
        rewrite (prefix_drop "prettier@" (String c task) Hs) at 1.
        rewrite prefix_append. exact Hp.
    + intros H. apply IH in H as (H1 & H2 & H3).
      repeat split; [exact H1 | exact H2 | ].
      cbn [str_contains]. rewrite H3. apply orb_true_r.
Qed.

Lemma search_prettier_none (task : string) :
  str_contains "prettier@" task = false -> search_prettier task = None.
Proof.
  induction task as [ | c task IH]; [reflexivity | ].
  intros H. rewrite search_prettier_eq.
  cbn [str_contains] in H. apply orb_false_iff in H as [H1 H2].
  unfold startswith. rewrite H1. apply IH, H2.
Qed.

(** X19: whatever the task says, the package that handle_format_markdown
    asks npm to install is prettier@ followed by a non-empty run of digits
    and dots, which is 3.4.2 or stands in the task right after prettier@:
    nothing else of the task reaches the command line. *)
Theorem npm_installs_a_plain_version :
  forall task : string,
    exists v,
      npm_install_argv task = ["npm"; "install"; "-g"; "prettier@" +:+ v]
      /\ v <> EmptyString
      /\ all_chars is_version_char v = true
      /\ (v = "3.4.2" \/ str_contains ("prettier@" +:+ v) task = true).
Proof.
  intros task. exists (prettier_version task).
  split; [reflexivity | ].
  unfold prettier_version.
  destruct (search_prettier task) as [v | ] eqn:E.
  - apply search_prettier_some in E as (H1 & H2 & H3). auto.
  - repeat split; [discriminate | left; reflexivity].
Qed.

(** X20: for a task that does not mention prettier@, the handler of
    main.py asks npm for the default version 3.4.2. *)
Theorem prettier_default_version :
  forall task : string,
    str_contains "prettier@" task = false ->
    npm_install_argv task = ["npm"; "install"; "-g"; "prettier@3.4.2"].
Proof.
  intros task H. unfold npm_install_argv, prettier_version.
  rewrite (search_prettier_none task H). reflexivity.
Qed.

Lemma prettier_default_version_witness :
  npm_install_argv "Format /data/format.md with prettier, updating the file in-place"
  = ["npm"; "install"; "-g"; "prettier@3.4.2"].
Proof.
  apply (prettier_default_version
           "Format /data/format.md with prettier, updating the file in-place").
  vm_compute. reflexivity.
Defined.

(** ** handlers/operations.py: the sender of the email *)




(** X22: when /data/email.txt cannot be read, handle_extract_email stops
    there: it raises HTTP 500 whose detail is the text of the accessor's
    error, no request is sent to the model and nothing is written. *)
Theorem extract_email_unreadable :
  forall (task : string) (w : world) (e : exn),
    snd (file_ops.read_file (joinpath DATA_DIR (Path "email.txt")) w) = Err e ->
    operations.handle_extract_email task w = (w, Err (HTTPException 500 (str_exn e))).
Proof.
  intros task w e H. unfold operations.handle_extract_email, try_exceptM.
  unfold bind at 1.
  destruct (file_ops.read_file (joinpath DATA_DIR (Path "email.txt")) w)
    as [w1 r] eqn:E1.
  simpl in H. subst r.
  apply read_file_err in E1 as [-> _]. reflexivity.
Qed.

Lemma extract_email_unreadable_witness :
  operations.handle_extract_email "Who sent /data/email.txt?" w0
  = (w0, Err (HTTPException 500 "404: File not found")).
Proof.
  apply (extract_email_unreadable "Who sent /data/email.txt?" w0
           (HTTPException 404 "File not found")).
  vm_compute. reflexivity.
Defined.
